(** * start_apps: Start Menu shortcuts reconciled with UserAssist usage counters

    A shallow embedding of [apps.py] and of the few CPython 3.11 library
    routines it calls ([str] methods, [codecs.decode(_, 'rot_13')],
    [struct.unpack_from], [ntpath.basename], [ntpath.splitext],
    [ntpath.join], [list.sort]), followed by the properties of the decoding
    and reconciliation engine.

    Conventions of the embedding.
    - A Python [str] is a list of characters; a character is a code point
      below 256 (the Latin-1 range), carried by [ascii].  The character
      classes ([isspace], [lower], [upper], [casefold]) follow CPython's
      tables on that range; [upper] and [casefold] can leave the range and
      therefore return code points.
    - A Python [bytes] is a list of [byte].
    - The data of a registry value is the Python object that [winreg] hands
      over for it ([reg_data]): bytes, [None], an [int], a [str] or a list.
    - A file written by the program is the bytes it holds once closed.
    - A Python [int] is a [Z].
    - A Python [dict] is an association list in insertion order with unique
      keys; a Python [set] is a duplicate-free list whose order stands for
      the iteration order of the set.
    - An exception is a value of [exn] carried by [result]. *)

From Stdlib Require Import String Ascii List Bool ZArith NArith Lia.
From Stdlib Require Import Permutation Sorted.
From Stdlib.Strings Require Import Byte.
Import ListNotations.

Set Implicit Arguments.

(* ================================================================= *)
(** * Part I: definitions *)
(* ================================================================= *)

(** ** Python values *)

Definition pystr := list ascii.
Definition pybytes := list byte.

(** String literals of the source are written [py "..."]. *)
Definition py (s : string) : pystr := list_ascii_of_string s.

Definition ord (c : ascii) : N := N_of_ascii c.
Definition chr (n : N) : ascii := ascii_of_N n.

Inductive exn : Type :=
| KeyError
| TypeError
| StructError
| FileNotFoundError
| PermissionError.

Inductive result (A : Type) : Type :=
| Ok (a : A)
| Raise (e : exn).

Arguments Ok {A} a.
Arguments Raise {A} e.

Definition bind {A B : Type} (r : result A) (k : A -> result B) : result B :=
  match r with
  | Ok a => k a
  | Raise e => Raise e
  end.

Notation "x <- r ;; k" := (bind r (fun x => k))
  (at level 61, r at next level, right associativity).

(** ** [str] methods *)

Fixpoint str_eqb (a b : pystr) : bool :=
  match a, b with
  | [], [] => true
  | x :: a', y :: b' => Ascii.eqb x y && str_eqb a' b'
  | _, _ => false
  end.

(** [str.isspace] on one character: TAB..CR, FS..US, SPACE, NEL, NBSP. *)
Definition isspace (c : ascii) : bool :=
  let n := ord c in
  (((9 <=? n) && (n <=? 13)) || ((28 <=? n) && (n <=? 32))
   || (n =? 133) || (n =? 160))%N.

Definition is_upper_letter (n : N) : bool :=
  (((65 <=? n) && (n <=? 90))
   || ((192 <=? n) && (n <=? 222) && negb (n =? 215)))%N.

Definition lower_char (c : ascii) : ascii :=
  let n := ord c in
  if is_upper_letter n then chr (n + 32) else c.

(** [s.lower()] *)
Definition lower (s : pystr) : pystr := map lower_char s.

Definition is_lower_letter (n : N) : bool :=
  (((97 <=? n) && (n <=? 122))
   || ((224 <=? n) && (n <=? 254) && negb (n =? 247)))%N.

(** [c.upper()], as code points: sharp s becomes "SS", micro sign and y
    with diaeresis leave the Latin-1 range. *)
Definition upper_char (c : ascii) : list N :=
  let n := ord c in
  (if is_lower_letter n then [n - 32]
   else if n =? 223 then [83; 83]
   else if n =? 181 then [924]
   else if n =? 255 then [376]
   else [n])%N.

Definition upper (s : pystr) : list N := flat_map upper_char s.



Definition codes (s : pystr) : list N := map ord s.

Fixpoint codes_eqb (a b : list N) : bool :=
  match a, b with
  | [], [] => true
  | x :: a', y :: b' => (x =? y)%N && codes_eqb a' b'
  | _, _ => false
  end.


Fixpoint lstrip (s : pystr) : pystr :=
  match s with
  | c :: r => if isspace c then lstrip r else s
  | [] => []
  end.

Definition rstrip (s : pystr) : pystr := rev (lstrip (rev s)).

(** [s.strip()] *)
Definition strip (s : pystr) : pystr := rstrip (lstrip s).

(** [c in s] for a one-character [c] *)
Definition contains (c : ascii) (s : pystr) : bool :=
  existsb (Ascii.eqb c) s.

(** [s.split(sep)] for a one-character separator *)
Fixpoint split (sep : ascii) (s : pystr) : list pystr :=
  match s with
  | [] => [[]]
  | c :: r =>
      if Ascii.eqb c sep then [] :: split sep r
      else match split sep r with
           | p :: ps => (c :: p) :: ps
           | [] => [[c]]
           end
  end.

(** [s.endswith(suffix)] *)
Definition endswith (s suffix : pystr) : bool :=
  (length suffix <=? length s)%nat
  && str_eqb (skipn (length s - length suffix) s) suffix.

(** [s[:-k]] *)
Definition drop_last (k : nat) (s : pystr) : pystr :=
  firstn (length s - k) s.

(** [s.find(c, start)] for a one-character [c]; [None] is Python's -1. *)
Fixpoint find_aux (c : ascii) (s : pystr) (i : nat) : option nat :=
  match s with
  | [] => None
  | x :: r => if Ascii.eqb x c then Some i else find_aux c r (S i)
  end.

Definition find (c : ascii) (start : nat) (s : pystr) : option nat :=
  find_aux c (skipn start s) start.

(** [s.rfind(c)] for a one-character [c], with Python's -1 when absent. *)
Fixpoint rfind_aux (c : ascii) (s : pystr) (i acc : Z) : Z :=
  match s with
  | [] => acc
  | x :: r => rfind_aux c r (i + 1) (if Ascii.eqb x c then i else acc)
  end.

Definition rfind (c : ascii) (s : pystr) : Z := rfind_aux c s 0 (-1).

(** ** [codecs.decode(s, 'rot_13')]: [str.translate] with the table that
    rotates A-Z and a-z by 13 and is the identity elsewhere. *)

Definition rot13_char (c : ascii) : ascii :=
  let n := ord c in
  (if (65 <=? n) && (n <=? 90) then chr (65 + (n - 65 + 13) mod 26)
   else if (97 <=? n) && (n <=? 122) then chr (97 + (n - 97 + 13) mod 26)
   else c)%N.

Definition rot_13 (s : pystr) : pystr := map rot13_char s.

Definition is_ascii_letter (c : ascii) : bool :=
  let n := ord c in
  (((65 <=? n) && (n <=? 90)) || ((97 <=? n) && (n <=? 122)))%N.

(** ** [ntpath] (os.path on Windows), CPython 3.11 *)

Module ntpath.

Definition sep : ascii := "\"%char.
Definition altsep : ascii := "/"%char.
Definition colon : ascii := ":"%char.
Definition extsep : ascii := "."%char.

(** [c in seps] with [seps = '\\/'] *)
Definition is_sep (c : ascii) : bool := Ascii.eqb c sep || Ascii.eqb c altsep.

Definition unc_prefix : pystr := [sep; sep; "?"%char; sep; "U"%char; "N"%char; "C"%char; sep].

(** [p.replace(altsep, sep)] *)
Definition normalize_seps (p : pystr) : pystr :=
  map (fun c => if Ascii.eqb c altsep then sep else c) p.

Definition splitdrive (p : pystr) : pystr * pystr :=
  if (2 <=? length p)%nat then
    let normp := normalize_seps p in
    if str_eqb (firstn 2 normp) [sep; sep] then
      let start :=
        if codes_eqb (upper (firstn 8 normp)) (codes unc_prefix) then 8%nat else 2%nat in
      match find sep start normp with
      | None => (p, [])
      | Some index =>
          match find sep (index + 1) normp with
          | None => (p, [])
          | Some index2 => (firstn index2 p, skipn index2 p)
          end
      end
    else if str_eqb (firstn 1 (skipn 1 normp)) [colon] then
      (firstn 2 p, skipn 2 p)
    else ([], p)
  else ([], p).

(** [while i and p[i-1] not in seps: i -= 1] *)
Fixpoint scan_back (p : pystr) (i : nat) : nat :=
  match i with
  | O => O
  | S j => if is_sep (nth j p " "%char) then i else scan_back p j
  end.

Fixpoint lstrip_seps (s : pystr) : pystr :=
  match s with
  | c :: r => if is_sep c then lstrip_seps r else s
  | [] => []
  end.

(** [head.rstrip(seps)] *)
Definition rstrip_seps (s : pystr) : pystr := rev (lstrip_seps (rev s)).

Definition split (p : pystr) : pystr * pystr :=
  let '(d, p) := splitdrive p in
  let i := scan_back p (length p) in
  let head := firstn i p in
  let tail := skipn i p in
  let head := match rstrip_seps head with [] => head | h => h end in
  (d ++ head, tail).

Definition basename (p : pystr) : pystr := snd (split p).

(** [genericpath._splitext(p, '\\', '/', '.')] *)
Definition splitext (p : pystr) : pystr * pystr :=
  let sepIndex := Z.max (rfind sep p) (rfind altsep p) in
  let dotIndex := rfind extsep p in
  if (sepIndex <? dotIndex)%Z
     && existsb (fun c => negb (Ascii.eqb c extsep))
          (firstn (Z.to_nat (dotIndex - (sepIndex + 1)))
                  (skipn (Z.to_nat (sepIndex + 1)) p))
  then (firstn (Z.to_nat dotIndex) p, skipn (Z.to_nat dotIndex) p)
  else (p, []).

(** [join(path, p)] for a second argument [p] that has no drive and does
    not start with a separator (the only use in [apps.py]). *)
Definition join (path p : pystr) : pystr :=
  let '(result_drive, result_path) := splitdrive path in
  let result_path :=
    match rev result_path with
    | c :: _ => if is_sep c then result_path else result_path ++ [sep]
    | [] => result_path
    end in
  let result_path := result_path ++ p in
  match result_path, rev result_drive with
  | c :: _, d :: _ =>
      if negb (is_sep c) && negb (Ascii.eqb d colon)
      then result_drive ++ [sep] ++ result_path
      else result_drive ++ result_path
  | _, _ => result_drive ++ result_path
  end.

End ntpath.

(** ** PART 2 of [apps.py]: [prettify_name] *)

(** Lines 58-59: [if '\\' in name: name = os.path.basename(name)] *)
Definition basename_step (name : pystr) : pystr :=
  if contains "\"%char name then ntpath.basename name else name.

(** Lines 60-63: the ['!'] rule *)
Definition bang_step (name : pystr) : pystr :=
  if contains "!"%char name then
    let parts := split "!"%char name in
    match strip (last parts []) with
    | [] => name
    | _ :: _ => strip (last parts [])
    end
  else name.

(** Lines 64-65: [if name.lower().endswith('.exe'): name = name[:-4]] *)
Definition exe_step (name : pystr) : pystr :=
  if endswith (lower name) (py ".exe") then drop_last 4 name else name.

Definition prettify_name (raw_name : pystr) : pystr :=
  let name := strip raw_name in
  let name := basename_step name in
  let name := bang_step name in
  let name := exe_step name in
  name.

(** ** Containers *)

(** [dict] of [str -> int] in insertion order. *)
Definition dict := list (pystr * Z).

(** [d.get(k, default)] *)
Fixpoint dict_get (d : dict) (k : pystr) (default : Z) : Z :=
  match d with
  | [] => default
  | (k', v) :: r => if str_eqb k' k then v else dict_get r k default
  end.

(** [d[k] = v]: an existing key keeps its position, a new key goes last. *)
Fixpoint dict_set (d : dict) (k : pystr) (v : Z) : dict :=
  match d with
  | [] => [(k, v)]
  | (k', v') :: r =>
      if str_eqb k' k then (k', v) :: r else (k', v') :: dict_set r k v
  end.

(** [k in d] *)
Definition dict_mem (d : dict) (k : pystr) : bool :=
  existsb (fun kv => str_eqb (fst kv) k) d.

(** [x in s] for a set of strings *)
Definition set_mem (x : pystr) (s : list pystr) : bool :=
  existsb (str_eqb x) s.

(** [s.add(x)] *)
Definition set_add (x : pystr) (s : list pystr) : list pystr :=
  if set_mem x s then s else s ++ [x].

(** ** [list.sort(key=..., reverse=...)]

    Python's sort is stable, also with [reverse=True]: elements whose keys
    compare equal keep their original relative order.  Insertion from the
    right produces that list: the element inserted stood before all of the
    elements already placed, so it goes in front of the first one that need
    not come strictly before it. *)

Section PySort.

Variables (A K : Type).
Variable key : A -> K.
Variable ltb : K -> K -> bool.

(** [goes_before reverse y x]: [y] has to come strictly before [x]. *)
Definition goes_before (reverse : bool) (y x : A) : bool :=
  if reverse then ltb (key x) (key y) else ltb (key y) (key x).

Fixpoint sort_insert (reverse : bool) (x : A) (l : list A) : list A :=
  match l with
  | [] => [x]
  | y :: r =>
      if goes_before reverse y x then y :: sort_insert reverse x r
      else x :: l
  end.

Definition list_sort (reverse : bool) (l : list A) : list A :=
  fold_right (sort_insert reverse) [] l.

End PySort.

(** ** PART 1 of [apps.py]: [get_start_menu_shortcuts]

    The operating system is a record of the three things the function asks
    of it: [os.environ], [os.path.exists] and [os.walk] (the sequence of
    [(root, dirs, files)] triples it yields for a top directory). *)

Record os_model : Type := {
  environ : pystr -> option pystr;
  path_exists : pystr -> bool;
  walk : pystr -> list (pystr * list pystr * list pystr)
}.

Definition system_start_menu : pystr :=
  py "C:\ProgramData\Microsoft\Windows\Start Menu\Programs".

Definition user_start_menu_suffix : pystr :=
  py "Microsoft\Windows\Start Menu\Programs".

(** The two nested loops over one [os.walk]. *)
Definition add_lnk_names (files : list pystr) (app_names : list pystr) : list pystr :=
  fold_left
    (fun app_names filename =>
       if endswith (lower filename) (py ".lnk") then
         let name_no_ext := fst (ntpath.splitext filename) in
         set_add name_no_ext app_names
       else app_names)
    files app_names.

Definition walk_names (os : os_model) (base_path : pystr) (app_names : list pystr)
  : list pystr :=
  fold_left
    (fun app_names triple => add_lnk_names (snd triple) app_names)
    (walk os base_path) app_names.

Definition scan_roots (os : os_model) (start_menu_paths : list pystr) : list pystr :=
  fold_left
    (fun app_names base_path =>
       if negb (path_exists os base_path) then app_names
       else walk_names os base_path app_names)
    start_menu_paths [].

Definition get_start_menu_shortcuts (os : os_model) : result (list pystr) :=
  match environ os (py "APPDATA") with
  | None => Raise KeyError
  | Some appdata =>
      let start_menu_paths :=
        [ system_start_menu; ntpath.join appdata user_start_menu_suffix ] in
      Ok (scan_roots os start_menu_paths)
  end.

(** ** PART 2 of [apps.py]: [get_userassist_usage] *)

Definition USERASSIST_GUIDS : list pystr :=
  [ py "{CEBFF5CD-ACE2-4F4F-9178-9926F41749EA}";
    py "{F2A1CB5A-E3CC-4A2E-AF9D-505A7009D442}" ].

Definition key_path (guid : pystr) : pystr :=
  py "Software\Microsoft\Windows\CurrentVersion\Explorer\UserAssist\"
  ++ guid ++ py "\Count".

(** The Python object that [winreg.EnumValue] hands over as the data of a
    value: [bytes] for binary data (and for the types winreg does not
    know), [None] for binary data of length zero, an [int] for a DWORD or
    QWORD, a [str] for a string and a list of [str] for a multi-string. *)
Inductive reg_data : Type :=
| DataBytes (b : pybytes)
| DataNone
| DataInt (n : Z)
| DataStr (s : pystr)
| DataList (l : list pystr).

(** The object winreg builds for a [REG_BINARY] value whose data is
    [payload]: [None] when the payload is empty, the bytes otherwise. *)
Definition binary_value (payload : pybytes) : reg_data :=
  match payload with
  | [] => DataNone
  | _ :: _ => DataBytes payload
  end.

(** [winreg.OpenKey(HKEY_CURRENT_USER, path)]: the values of the key in
    enumeration order, or the [OSError] raised. *)
Inductive open_result : Type :=
| Opened (values : list (pystr * reg_data))
| OpenFails (e : exn).

Definition registry := pystr -> open_result.

(** [winreg.EnumValue(key, i)]; [None] is the [OSError] past the last value. *)
Definition EnumValue (key : list (pystr * reg_data)) (i : nat)
  : option (pystr * reg_data) :=
  nth_error key i.

(** [len(value_data)]: [None] and [int] have no length. *)
Definition py_len (value_data : reg_data) : result nat :=
  match value_data with
  | DataBytes b => Ok (length b)
  | DataStr s => Ok (length s)
  | DataList l => Ok (length l)
  | DataNone => Raise TypeError
  | DataInt _ => Raise TypeError
  end.

Definition byte_val (b : byte) : Z := Z.of_N (Byte.to_N b).

(** [struct.unpack_from("<I", buffer, offset)[0]]; [struct.error] when fewer
    than four bytes are left at [offset]. *)
Definition unpack_from_I (buffer : pybytes) (offset : nat) : result Z :=
  match skipn offset buffer with
  | b0 :: b1 :: b2 :: b3 :: _ =>
      Ok (byte_val b0 + 256 * byte_val b1 + 65536 * byte_val b2
          + 16777216 * byte_val b3)%Z
  | _ => Raise StructError
  end.

(** [struct.unpack_from("<I", value_data, offset)[0]] on the object handed
    over: anything but bytes is refused with a [TypeError]. *)
Definition unpack_from_data (value_data : reg_data) (offset : nat) : result Z :=
  match value_data with
  | DataBytes b => unpack_from_I b offset
  | _ => Raise TypeError
  end.

(** Lines 88-91: the usage count of one value. *)
Definition usage_count_of (value_data : reg_data) : result Z :=
  n <- py_len value_data ;;
  if (8 <=? n)%nat then unpack_from_data value_data 4
  else Ok 0%Z.

(** Lines 87-93: one registry value decoded to [(app_name, usage_count)]. *)
Definition decode_record (value_name : pystr) (value_data : reg_data)
  : result (pystr * Z) :=
  let decoded_name := rot_13 value_name in
  usage_count <- usage_count_of value_data ;;
  let app_name := prettify_name decoded_name in
  Ok (app_name, usage_count).

(** Line 96 *)
Definition accumulate (usage_dict : dict) (app_name : pystr) (usage_count : Z) : dict :=
  dict_set usage_dict app_name (dict_get usage_dict app_name 0 + usage_count)%Z.

(** The [while True] loop over [EnumValue(key, i)], with fuel; [None] is
    fuel exhausted. *)
Fixpoint enum_loop (fuel : nat) (key : list (pystr * reg_data)) (i : nat)
  (usage_dict : dict) : option (result dict) :=
  match fuel with
  | O => None
  | S fuel' =>
      match EnumValue key i with
      | None => Some (Ok usage_dict)
      | Some (value_name, value_data) =>
          let i := (i + 1)%nat in
          match decode_record value_name value_data with
          | Raise e => Some (Raise e)
          | Ok (app_name, usage_count) =>
              enum_loop fuel' key i (accumulate usage_dict app_name usage_count)
          end
      end
  end.

(** The [for guid in ...] loop: a key that is not found is passed over, any
    other failure of [OpenKey] propagates. *)
Fixpoint guid_loop (reg : registry) (guids : list pystr) (usage_dict : dict)
  : option (result dict) :=
  match guids with
  | [] => Some (Ok usage_dict)
  | guid :: rest =>
      match reg (key_path guid) with
      | OpenFails FileNotFoundError => guid_loop reg rest usage_dict
      | OpenFails e => Some (Raise e)
      | Opened key =>
          match enum_loop (S (length key)) key 0 usage_dict with
          | Some (Ok usage_dict') => guid_loop reg rest usage_dict'
          | other => other
          end
      end
  end.

Definition get_userassist_usage (reg : registry) : option (result dict) :=
  guid_loop reg USERASSIST_GUIDS [].

(** ** PART 3 of [apps.py]: [main] and [on_save_as_txt] *)

(** [(app_name, usage_count, is_start_menu)] *)
Definition entry := (pystr * Z * bool)%type.

Definition app_name_of (x : entry) : pystr := fst (fst x).
Definition count_of (x : entry) : Z := snd (fst x).
Definition is_start_menu (x : entry) : bool := snd x.

(** [lambda x: (not x[2], x[1])] *)
Definition sort_key (x : entry) : bool * Z := (negb (is_start_menu x), count_of x).

(** Python's [<] on [(bool, int)] tuples, with [False < True]. *)
Definition key_ltb (a b : bool * Z) : bool :=
  match fst a, fst b with
  | false, true => true
  | true, false => false
  | _, _ => (snd a <? snd b)%Z
  end.

(** Steps 3 and 4 of [main]: [start_menu_apps] is the set in its iteration
    order, [usage_dict] the dictionary in insertion order. *)
Definition combined_list (start_menu_apps : list pystr) (usage_dict : dict) : list entry :=
  map (fun sm_app => (sm_app, dict_get usage_dict sm_app 0%Z, true)) start_menu_apps
  ++ map (fun kv => (fst kv, snd kv, false))
       (filter (fun kv => negb (set_mem (fst kv) start_menu_apps)) usage_dict).

Definition final_list (start_menu_apps : list pystr) (usage_dict : dict) : list entry :=
  list_sort sort_key key_ltb true (combined_list start_menu_apps usage_dict).

Definition newline : ascii := "010"%char.










(** ** Declarative reading of the normalisation steps

    These predicates say in terms of concatenation what the steps of the
    NameNormalizer are meant to compute; they are compared with
    [prettify_name] in Part II. *)

(** Only whitespace. *)
Definition blank (s : pystr) : bool := forallb isspace s.

(** [t] neither starts nor ends with whitespace. *)
Definition tight (t : pystr) : Prop :=
  (forall c, hd_error t = Some c -> isspace c = false)
  /\ (forall c, hd_error (rev t) = Some c -> isspace c = false).

(** [t] is [s] with its leading and trailing whitespace removed. *)
Definition trimmed (s t : pystr) : Prop :=
  exists l r, s = l ++ t ++ r /\ blank l = true /\ blank r = true /\ tight t.

(** [seg] is what follows the last [c] of [s]. *)
Definition after_last (c : ascii) (s pre seg : pystr) : Prop :=
  s = pre ++ c :: seg /\ contains c seg = false.

(** [ext] is [.exe] in some letter case. *)
Definition is_exe_suffix (ext : pystr) : Prop := lower ext = py ".exe".

(** Step 1 of the NameNormalizer. *)
Definition path_reduced (n n' : pystr) : Prop :=
  (contains "\"%char n = false /\ n' = n)
  \/ (contains "\"%char n = true /\ n' = ntpath.basename n
      /\ (exists head, n = head ++ n')
      /\ forallb (fun c => negb (ntpath.is_sep c)) n' = true).

(** Step 2 of the NameNormalizer. *)
Definition bang_applied (n n' : pystr) : Prop :=
  (contains "!"%char n = false /\ n' = n)
  \/ (exists pre seg, after_last "!"%char n pre seg
      /\ ((blank seg = true /\ n' = n)
          \/ (blank seg = false /\ trimmed seg n' /\ n' <> []))).

(** Step 3 of the NameNormalizer. *)
Definition exe_stripped (n n' : pystr) : Prop :=
  (exists ext, n = n' ++ ext /\ is_exe_suffix ext)
  \/ (n' = n /\ forall p ext, n = p ++ ext -> ~ is_exe_suffix ext).

(** The unsigned 32-bit little-endian integer at byte offset [off]. *)
Definition le_u32_at (payload : pybytes) (off : nat) : Z :=
  (byte_val (nth off payload x00)
   + 2 ^ 8 * byte_val (nth (off + 1) payload x00)
   + 2 ^ 16 * byte_val (nth (off + 2) payload x00)
   + 2 ^ 24 * byte_val (nth (off + 3) payload x00))%Z.

(** Every record the usage store holds, in processing order: the values of
    each section that opens, section by section. *)
Definition section_records (reg : registry) (guid : pystr) : list (pystr * reg_data) :=
  match reg (key_path guid) with
  | Opened values => values
  | OpenFails _ => []
  end.

Definition all_records (reg : registry) : list (pystr * reg_data) :=
  flat_map (section_records reg) USERASSIST_GUIDS.

(** No section fails to open for a reason other than being absent. *)
Definition sections_readable (reg : registry) : Prop :=
  forall guid e, In guid USERASSIST_GUIDS ->
    reg (key_path guid) = OpenFails e -> e = FileNotFoundError.

Definition friendly_name (r : pystr * reg_data) : pystr :=
  prettify_name (rot_13 (fst r)).

(** The count a payload stands for: the field at offset 4, or 0 when the
    payload is too short to hold it. *)
Definition payload_count (payload : pybytes) : Z :=
  if (8 <=? length payload)%nat then le_u32_at payload 4 else 0%Z.

(** The data on which lines 88-91 do not raise: bytes of any length, and
    strings and lists shorter than 8 (their length is taken, nothing is
    unpacked). *)
Definition decodable (value_data : reg_data) : bool :=
  match value_data with
  | DataBytes _ => true
  | DataStr s => (length s <? 8)%nat
  | DataList l => (length l <? 8)%nat
  | DataNone => false
  | DataInt _ => false
  end.

(** The count that decodable data stand for. *)
Definition data_count (value_data : reg_data) : Z :=
  match value_data with
  | DataBytes b => payload_count b
  | _ => 0%Z
  end.

Definition record_count (r : pystr * reg_data) : Z := data_count (snd r).

(** Every value of every section that opens has decodable data. *)
Definition values_decodable (reg : registry) : Prop :=
  forall r, In r (all_records reg) -> decodable (snd r) = true.

(** Sum of the counts of the records that normalize to [name]. *)
Definition sum_counts (name : pystr) (records : list (pystr * reg_data)) : Z :=
  fold_right Z.add 0%Z
    (map record_count (filter (fun r => str_eqb (friendly_name r) name) records)).

(** The dictionary after the records have been processed one by one. *)
Definition aggregate (records : list (pystr * reg_data)) (usage_dict : dict) : dict :=
  fold_left
    (fun d r => accumulate d (friendly_name r) (record_count r))
    records usage_dict.

(** [x] may stand before [y] in a list sorted with [key], [ltb] and
    [reverse]: [y] does not have to come strictly before [x]. *)
Definition in_order (A K : Type) (key : A -> K) (ltb : K -> K -> bool)
  (reverse : bool) (x y : A) : Prop :=
  goes_before key ltb reverse y x = false.



(** [t] occurs in [s] as a run of consecutive characters. *)
Definition substring (t s : pystr) : Prop := exists a b, s = a ++ t ++ b.

(** The distinct elements of a list, each at its first occurrence. *)
Definition distinct_in_order (l : list pystr) : list pystr :=
  fold_left (fun acc x => set_add x acc) l [].

(** [dict.keys()], in insertion order. *)
Definition dict_keys (d : dict) : list pystr := map fst d.

(** A character other than the extension separator. *)
Definition not_dot (c : ascii) : bool := negb (Ascii.eqb c ntpath.extsep).

(** A machine whose two Start Menu roots both hold a shortcut to the same
    tool, beside files that are not shortcuts. *)
Definition os_with_shortcuts : os_model :=
  {| environ := fun _ => Some (py "C:\Users\u\AppData\Roaming");
     path_exists := fun _ => true;
     walk := fun _ =>
       [(py "root", [py "Tools"], [py "readme.txt"; py "Tool.lnk"]);
        (py "root\Tools", [], [py "Tool.LNK"; py "Edit.v2.lnk"])] |}.

(** [filename] is a shortcut file and [name] is the name recorded for it. *)
Definition lnk_named (filename name : pystr) : Prop :=
  endswith (lower filename) (py ".lnk") = true
  /\ name = fst (ntpath.splitext filename).

(** A store whose first section is absent and whose second one cannot be
    opened. *)
Definition reg_access_denied : registry :=
  fun path =>
    if str_eqb path (key_path (py "{F2A1CB5A-E3CC-4A2E-AF9D-505A7009D442}"))
    then OpenFails PermissionError
    else OpenFails FileNotFoundError.

(** A store with three records in its first section, two of them for the
    same program with the largest count a payload can hold, and no second
    section. *)
Definition reg_big_counts : registry :=
  fun path =>
    if str_eqb path (key_path (py "{CEBFF5CD-ACE2-4F4F-9178-9926F41749EA}"))
    then Opened
           [(py "Cnvag.rkr", DataBytes [x00; x00; x00; x00; xff; xff; xff; xff]);
            (py "Abgrcnq.rkr", DataBytes [x00; x00; x00; x00; x01; x00; x00; x00]);
            (py "P:\Cnvag.RKR",
             DataBytes [x09; x09; x09; x09; xff; xff; xff; xff; x09])]
    else OpenFails FileNotFoundError.

(** Entries of one group with one count: equal sort keys. *)
Definition same_rank (f : bool) (c : Z) (x : entry) : bool :=
  Bool.eqb (is_start_menu x) f && (count_of x =? c)%Z.

(** The usage names that are not Start Menu shortcuts, in dictionary order. *)
Definition unlisted_usage (start_menu_apps : list pystr) (usage_dict : dict) : dict :=
  filter (fun kv => negb (set_mem (fst kv) start_menu_apps)) usage_dict.


(** A store whose first section holds one good record followed by a value
    with binary data of length zero. *)
Definition reg_empty_payload : registry :=
  fun path =>
    if str_eqb path (key_path (py "{CEBFF5CD-ACE2-4F4F-9178-9926F41749EA}"))
    then Opened
           [(py "Cnvag.rkr", binary_value [x00; x00; x00; x00; x02; x00; x00; x00]);
            (py "Abgrcnq.rkr", binary_value [])]
    else OpenFails FileNotFoundError.

(** A store with two sections, each holding one record for the same
    program. *)
Definition reg_two_sections : registry :=
  fun path =>
    if str_eqb path (key_path (py "{CEBFF5CD-ACE2-4F4F-9178-9926F41749EA}"))
    then Opened [(py "Abgrcnq.rkr",
                  DataBytes [x00; x00; x00; x00; x03; x00; x00; x00])]
    else if str_eqb path (key_path (py "{F2A1CB5A-E3CC-4A2E-AF9D-505A7009D442}"))
    then Opened [(py "P:\Jvaqbjf\Abgrcnq.RKR",
                  DataBytes [x00; x00; x00; x00; x05; x00; x00; x00; x00; x00])]
    else OpenFails FileNotFoundError.






(* ================================================================= *)
(** * Part II: properties *)
(* ================================================================= *)

(** ** Strings *)

Lemma str_eqb_eq (a b : pystr) : str_eqb a b = true <-> a = b.
Proof.
  revert b; induction a as [|x a IH]; intros [|y b]; simpl; split;
    try congruence; try reflexivity.
  - intros H. apply andb_true_iff in H as [Hx Ha].
    apply Ascii.eqb_eq in Hx. apply IH in Ha. congruence.
  - intros H. injection H as -> ->.
    rewrite Ascii.eqb_refl. simpl. now apply IH.
Qed.

Lemma str_eqb_refl (a : pystr) : str_eqb a a = true.
Proof. now apply str_eqb_eq. Qed.

Lemma str_eqb_neq (a b : pystr) : str_eqb a b = false <-> a <> b.
Proof.
  split.
  - intros H E. apply str_eqb_eq in E. congruence.
  - intros H. destruct (str_eqb a b) eqn:E; [|reflexivity].
    apply str_eqb_eq in E. contradiction.
Qed.

Lemma str_eqb_sym (a b : pystr) : str_eqb a b = str_eqb b a.
Proof.
  destruct (str_eqb a b) eqn:E.
  - apply str_eqb_eq in E. subst. now rewrite str_eqb_refl.
  - symmetry. apply str_eqb_neq. apply str_eqb_neq in E. congruence.
Qed.

(** ** The rotation cipher *)

Ltac each_char c := destruct c as [[] [] [] [] [] [] [] []].

Lemma rot13_char_involutive (c : ascii) : rot13_char (rot13_char c) = c.
Proof. each_char c; vm_compute; reflexivity. Qed.

Lemma rot13_char_other (c : ascii) :
  is_ascii_letter c = false -> rot13_char c = c.
Proof. each_char c; vm_compute; intros H; congruence. Qed.

Lemma rot13_char_letter (c : ascii) :
  is_ascii_letter (rot13_char c) = is_ascii_letter c.
Proof. each_char c; vm_compute; reflexivity. Qed.

(** C4. The rotation cipher is a total function on strings that is its own
    inverse: applied twice it gives the string back.  It keeps the length,
    and every character that is not one of the letters A-Z, a-z stays where
    it is, unchanged. *)
Theorem rot_13_involution (s : pystr) :
  rot_13 (rot_13 s) = s
  /\ length (rot_13 s) = length s
  /\ (forall i c, nth_error s i = Some c -> is_ascii_letter c = false ->
        nth_error (rot_13 s) i = Some c).
Proof.
  unfold rot_13. repeat split.
  - rewrite map_map. rewrite <- (map_id s) at 2.
    apply map_ext. intros c. apply rot13_char_involutive.
  - apply length_map.
  - intros i c Hi Hc. rewrite nth_error_map, Hi. simpl.
    now rewrite rot13_char_other.
Qed.

Lemma rot_13_involution_witness :
  rot_13 (rot_13 (py "P:\Ncc 1!")) = py "P:\Ncc 1!"
  /\ nth_error (rot_13 (py "P:\Ncc 1!")) 1 = Some ":"%char.
Proof.
  destruct (rot_13_involution (py "P:\Ncc 1!")) as (H1 & _ & H3).
  split; [exact H1|].
  apply H3; reflexivity.
Defined.

(** ** Count extraction *)

Lemma byte_val_range (b : byte) : (0 <= byte_val b < 256)%Z.
Proof.
  unfold byte_val. pose proof (Byte.to_N_bounded b) as H.
  split; [apply N2Z.is_nonneg|].
  change 256%Z with (Z.of_N 256). apply N2Z.inj_lt. lia.
Qed.

Lemma le_u32_at_range (payload : pybytes) (off : nat) :
  (0 <= le_u32_at payload off < 2 ^ 32)%Z.
Proof.
  unfold le_u32_at.
  pose proof (byte_val_range (nth off payload x00)).
  pose proof (byte_val_range (nth (off + 1) payload x00)).
  pose proof (byte_val_range (nth (off + 2) payload x00)).
  pose proof (byte_val_range (nth (off + 3) payload x00)).
  change (2 ^ 8)%Z with 256%Z. change (2 ^ 16)%Z with 65536%Z.
  change (2 ^ 24)%Z with 16777216%Z. change (2 ^ 32)%Z with 4294967296%Z.
  lia.
Qed.

Lemma unpack_from_I_at_4 (payload : pybytes) :
  (8 <= length payload)%nat ->
  unpack_from_I payload 4 = Ok (le_u32_at payload 4).
Proof.
  intros H.
  destruct payload as [|a0 [|a1 [|a2 [|a3 [|b0 [|b1 [|b2 [|b3 r]]]]]]]];
    simpl in H; try lia.
  unfold unpack_from_I, le_u32_at. simpl. reflexivity.
Qed.

Lemma usage_count_of_bytes (payload : pybytes) :
  usage_count_of (DataBytes payload) = Ok (payload_count payload).
Proof.
  unfold usage_count_of, payload_count. cbn [py_len bind unpack_from_data].
  destruct (8 <=? length payload)%nat eqn:E; [|reflexivity].
  apply Nat.leb_le in E. now apply unpack_from_I_at_4.
Qed.

(** Lines 88-91 either give the count or raise a [TypeError]. *)
Lemma usage_count_of_spec (value_data : reg_data) :
  usage_count_of value_data
  = if decodable value_data then Ok (data_count value_data) else Raise TypeError.
Proof.
  destruct value_data as [b| |n|s|l]; try reflexivity.
  - apply usage_count_of_bytes.
  - unfold usage_count_of. cbn [py_len bind decodable data_count].
    rewrite Nat.leb_antisym. now destruct (length s <? 8)%nat.
  - unfold usage_count_of. cbn [py_len bind decodable data_count].
    rewrite Nat.leb_antisym. now destruct (length l <? 8)%nat.
Qed.

Lemma decode_record_spec (value_name : pystr) (value_data : reg_data) :
  decode_record value_name value_data
  = if decodable value_data
    then Ok (friendly_name (value_name, value_data),
             record_count (value_name, value_data))
    else Raise TypeError.
Proof.
  unfold decode_record. rewrite usage_count_of_spec.
  now destruct (decodable value_data).
Qed.

Lemma decode_record_ok (value_name : pystr) (value_data : reg_data) :
  decodable value_data = true ->
  decode_record value_name value_data
  = Ok (friendly_name (value_name, value_data),
        record_count (value_name, value_data)).
Proof. intros H. now rewrite decode_record_spec, H. Qed.

(** On a bytes object decoding does not raise: the count is 0 below 8
    bytes and the little-endian field at offset 4 from 8 bytes on. *)
Lemma decode_count_of_bytes (value_name : pystr) (payload : pybytes) :
  exists count,
    decode_record value_name (DataBytes payload)
    = Ok (prettify_name (rot_13 value_name), count)
    /\ usage_count_of (DataBytes payload) = Ok count
    /\ ((length payload < 8)%nat -> count = 0%Z)
    /\ ((8 <= length payload)%nat -> count = le_u32_at payload 4)
    /\ (0 <= count < 2 ^ 32)%Z.
Proof.
  exists (payload_count payload).
  split; [now apply decode_record_ok|].
  split; [apply usage_count_of_bytes|].
  unfold payload_count.
  destruct (8 <=? length payload)%nat eqn:E.
  - apply Nat.leb_le in E.
    split; [lia|]. split; [reflexivity|]. apply le_u32_at_range.
  - apply Nat.leb_gt in E.
    split; [reflexivity|]. split; [lia|]. change (2 ^ 32)%Z with 4294967296%Z. lia.
Qed.

(** C3, evaluated on a payload of length zero.  winreg hands the data of
    such a value over as [None]; [len(value_data)] then raises a
    [TypeError], which neither [except] clause catches, so decoding the
    record raises and so does the whole of [get_userassist_usage], also
    after a good record has been read. *)
Theorem decode_empty_payload_raises :
  binary_value [] = DataNone
  /\ usage_count_of (binary_value []) = Raise TypeError
  /\ decode_record (py "Abgrcnq.rkr") (binary_value []) = Raise TypeError
  /\ get_userassist_usage reg_empty_payload = Some (Raise TypeError).
Proof. repeat split. Qed.

(** ** Trimming *)

Lemma blank_app (a b : pystr) : blank (a ++ b) = blank a && blank b.
Proof. apply forallb_app. Qed.

Lemma blank_rev (a : pystr) : blank (rev a) = blank a.
Proof.
  induction a as [|c a IH]; [reflexivity|].
  simpl. rewrite blank_app, IH. simpl. rewrite andb_true_r. apply andb_comm.
Qed.

Lemma lstrip_split (s : pystr) :
  exists l, s = l ++ lstrip s /\ blank l = true
    /\ (forall c, hd_error (lstrip s) = Some c -> isspace c = false).
Proof.
  induction s as [|c s (l & E & B & H)].
  - exists []. repeat split; simpl; congruence.
  - simpl. destruct (isspace c) eqn:Ec.
    + exists (c :: l). simpl. rewrite Ec, B. repeat split; [congruence|exact H].
    + exists []. repeat split. simpl. congruence.
Qed.

Lemma rstrip_split (s : pystr) :
  exists r, s = rstrip s ++ r /\ blank r = true
    /\ (forall c, hd_error (rev (rstrip s)) = Some c -> isspace c = false).
Proof.
  unfold rstrip. destruct (lstrip_split (rev s)) as (l & E & B & H).
  exists (rev l). split; [|split].
  - rewrite <- rev_app_distr, <- E. symmetry. apply rev_involutive.
  - now rewrite blank_rev.
  - now rewrite rev_involutive.
Qed.

Lemma strip_trimmed (s : pystr) : trimmed s (strip s).
Proof.
  unfold trimmed, strip.
  destruct (lstrip_split s) as (l & El & Bl & Hl).
  destruct (rstrip_split (lstrip s)) as (r & Er & Br & Hr).
  exists l, r. split; [|split; [exact Bl|split; [exact Br|split]]].
  - rewrite <- Er. exact El.
  - intros c Hc. apply Hl. rewrite Er.
    destruct (rstrip (lstrip s)); simpl in *; congruence.
  - exact Hr.
Qed.

Lemma lstrip_blank (s : pystr) : blank s = true -> lstrip s = [].
Proof.
  induction s as [|c s IH]; [reflexivity|].
  simpl. destruct (isspace c); simpl; [exact IH|discriminate].
Qed.

Lemma strip_nil_iff (s : pystr) : strip s = [] <-> blank s = true.
Proof.
  split.
  - intros E. destruct (strip_trimmed s) as (l & r & Es & Bl & Br & _).
    rewrite E in Es. rewrite Es. simpl. now rewrite blank_app, Bl, Br.
  - intros B. unfold strip. now rewrite (lstrip_blank s B).
Qed.

Lemma tight_not_blank (t : pystr) : tight t -> t <> [] -> blank t = false.
Proof.
  intros [H _] Hne. destruct t as [|c t]; [congruence|].
  simpl. now rewrite (H c eq_refl).
Qed.

(** A string has one trimmed form only. *)
Lemma trimmed_strip (s t : pystr) : trimmed s t -> t = strip s.
Proof.
  intros (l & r & E & Bl & Br & [Hh Hl]). subst s. unfold strip.
  assert (L : forall l, blank l = true -> lstrip (l ++ t ++ r) = lstrip (t ++ r)).
  { clear. induction l as [|c l IH]; intros B; [reflexivity|].
    simpl in *. apply andb_true_iff in B as [-> B]. now apply IH. }
  rewrite (L l Bl). clear L Bl l.
  destruct t as [|c t].
  - simpl. rewrite (lstrip_blank r Br). reflexivity.
  - simpl. rewrite (Hh c eq_refl). unfold rstrip.
    change (c :: t ++ r) with ((c :: t) ++ r). rewrite rev_app_distr.
    assert (L : forall l u, blank l = true -> lstrip (l ++ u) = lstrip u).
    { clear. induction l as [|x l IH]; intros u B; [reflexivity|].
      simpl in *. apply andb_true_iff in B as [-> B]. now apply IH. }
    rewrite L by now rewrite blank_rev.
    destruct (rev (c :: t)) as [|x u] eqn:Eu.
    + apply (f_equal (@length _)) in Eu. rewrite length_rev in Eu. discriminate.
    + simpl. rewrite (Hl x eq_refl). rewrite <- Eu. symmetry. apply rev_involutive.
Qed.

(** ** [split] and its last part *)

Lemma contains_app (c : ascii) (a b : pystr) :
  contains c (a ++ b) = contains c a || contains c b.
Proof. apply existsb_app. Qed.

Lemma split_not_nil (c : ascii) (s : pystr) : split c s <> [].
Proof.
  destruct s as [|x r]; simpl; [discriminate|].
  destruct (Ascii.eqb x c); [discriminate|].
  destruct (split c r); discriminate.
Qed.

Lemma split_absent (c : ascii) (s : pystr) :
  contains c s = false -> split c s = [s].
Proof.
  induction s as [|x r IH]; [reflexivity|].
  simpl. rewrite (Ascii.eqb_sym c x).
  destruct (Ascii.eqb x c); simpl; [discriminate|].
  intros H. now rewrite (IH H).
Qed.

Lemma split_present (c : ascii) (s : pystr) :
  contains c s = true -> exists p q ps, split c s = p :: q :: ps.
Proof.
  induction s as [|x r IH]; [discriminate|].
  simpl. rewrite (Ascii.eqb_sym c x).
  destruct (Ascii.eqb x c); simpl.
  - intros _. destruct (split c r) as [|q ps] eqn:E.
    + now apply split_not_nil in E.
    + now exists [], q, ps.
  - intros H. destruct (IH H) as (p & q & ps & E). rewrite E.
    now exists (x :: p), q, ps.
Qed.

Lemma last_split_cons (c x : ascii) (r : pystr) :
  last (split c (x :: r)) []
  = if contains c r then last (split c r) []
    else if Ascii.eqb x c then r else x :: r.
Proof.
  simpl split. destruct (contains c r) eqn:Hc.
  - destruct (split_present c r Hc) as (p & q & ps & E). rewrite E.
    destruct (Ascii.eqb x c); reflexivity.
  - rewrite (split_absent c r Hc). destruct (Ascii.eqb x c); reflexivity.
Qed.

Lemma last_split_after (c : ascii) (s : pystr) :
  contains c s = true ->
  exists pre, after_last c s pre (last (split c s) []).
Proof.
  unfold after_last. induction s as [|x r IH]; [discriminate|].
  intros H. rewrite last_split_cons.
  destruct (contains c r) eqn:Hc.
  - destruct (IH eq_refl) as (pre & E & N). exists (x :: pre).
    split; [simpl; congruence|exact N].
  - simpl in H. rewrite Hc, orb_false_r in H.
    rewrite (Ascii.eqb_sym c x) in H. rewrite H.
    apply Ascii.eqb_eq in H. subst x. now exists [].
Qed.

(** What follows the last [c] is determined by the string. *)
Lemma after_last_unique (c : ascii) (s pre seg pre' seg' : pystr) :
  after_last c s pre seg -> after_last c s pre' seg' -> seg = seg'.
Proof.
  unfold after_last. revert s pre'.
  induction pre as [|x pre IH]; intros s pre' [E N] [E' N'].
  - destruct pre' as [|y pre']; simpl in *.
    + congruence.
    + subst s. injection E' as -> ->.
      rewrite contains_app in N. simpl in N.
      rewrite Ascii.eqb_refl, orb_true_r in N. discriminate.
  - destruct pre' as [|y pre']; simpl in *.
    + subst s. injection E' as -> <-.
      rewrite contains_app in N'. simpl in N'.
      rewrite Ascii.eqb_refl, orb_true_r in N'. discriminate.
    + subst s. injection E' as -> E'.
      apply (IH (pre ++ c :: seg) pre'); split; auto.
Qed.

(** ** Suffixes *)

Lemma length_lower (s : pystr) : length (lower s) = length s.
Proof. apply length_map. Qed.

Lemma endswith_app (p suffix : pystr) : endswith (p ++ suffix) suffix = true.
Proof.
  unfold endswith. rewrite length_app.
  replace (length p + length suffix - length suffix)%nat with (length p) by lia.
  rewrite skipn_app, skipn_all, Nat.sub_diag. simpl.
  rewrite str_eqb_refl, andb_true_r. apply Nat.leb_le. lia.
Qed.

Lemma endswith_split (s suffix : pystr) :
  endswith s suffix = true ->
  s = firstn (length s - length suffix) s ++ suffix.
Proof.
  unfold endswith. intros H. apply andb_true_iff in H as [_ H].
  apply str_eqb_eq in H.
  transitivity (firstn (length s - length suffix) s
                ++ skipn (length s - length suffix) s).
  - symmetry. apply firstn_skipn.
  - f_equal. exact H.
Qed.

Lemma exe_step_stripped (n : pystr) : exe_stripped n (exe_step n).
Proof.
  unfold exe_stripped, exe_step, is_exe_suffix.
  destruct (endswith (lower n) (py ".exe")) eqn:E.
  - left. exists (skipn (length n - 4) n). split.
    + unfold drop_last. symmetry. apply firstn_skipn.
    + apply endswith_split in E. rewrite length_lower in E.
      change (length (py ".exe")) with 4%nat in E.
      unfold lower in *. rewrite <- skipn_map.
      rewrite E at 1. rewrite skipn_app.
      rewrite skipn_all2 by (rewrite length_firstn, length_map; lia).
      rewrite length_firstn, length_map.
      assert (L : (4 <= length n)%nat).
      { apply (f_equal (@length _)) in E.
        rewrite length_app, length_map in E. simpl in E. lia. }
      replace (length n - 4 - Nat.min (length n - 4) (length n))%nat with 0%nat by lia.
      reflexivity.
  - right. split; [reflexivity|]. intros p ext -> H.
    unfold lower in E. rewrite map_app in E. unfold lower in H. rewrite H in E.
    rewrite endswith_app in E. discriminate.
Qed.

(** ** [ntpath.basename] *)

Lemma splitdrive_app (p : pystr) :
  fst (ntpath.splitdrive p) ++ snd (ntpath.splitdrive p) = p.
Proof.
  unfold ntpath.splitdrive.
  destruct (2 <=? length p)%nat; [|reflexivity].
  destruct (str_eqb _ _).
  - destruct (find _ _ _) as [index|]; [|apply app_nil_r].
    destruct (find _ _ _) as [index2|]; [|apply app_nil_r].
    apply firstn_skipn.
  - destruct (str_eqb _ _); [apply firstn_skipn|reflexivity].
Qed.

Lemma scan_back_le (p : pystr) (i : nat) : (ntpath.scan_back p i <= i)%nat.
Proof.
  induction i as [|j IH]; simpl; [lia|].
  destruct (ntpath.is_sep _); lia.
Qed.

Lemma scan_back_clear (p : pystr) (i j : nat) :
  (ntpath.scan_back p i <= j < i)%nat ->
  ntpath.is_sep (nth j p " "%char) = false.
Proof.
  induction i as [|k IH]; simpl; [lia|].
  destruct (ntpath.is_sep (nth k p " "%char)) eqn:E; [lia|].
  intros H. destruct (Nat.eq_dec j k) as [->|N]; [exact E|].
  apply IH. lia.
Qed.

Lemma skipn_forallb (f : ascii -> bool) (p : pystr) (a : nat) :
  (forall j, (a <= j < length p)%nat -> f (nth j p " "%char) = true) ->
  forallb f (skipn a p) = true.
Proof.
  intros H. apply forallb_forall. intros x Hx.
  apply (In_nth _ _ " "%char) in Hx as (n & Hn & <-).
  rewrite nth_skipn. apply H. rewrite length_skipn in Hn. lia.
Qed.

Lemma basename_suffix (p : pystr) : exists head, p = head ++ ntpath.basename p.
Proof.
  unfold ntpath.basename, ntpath.split.
  pose proof (splitdrive_app p) as E.
  destruct (ntpath.splitdrive p) as [d rest]. simpl in *.
  exists (d ++ firstn (ntpath.scan_back rest (length rest)) rest).
  rewrite <- app_assoc, firstn_skipn. now symmetry.
Qed.

Lemma basename_no_sep (p : pystr) :
  forallb (fun c => negb (ntpath.is_sep c)) (ntpath.basename p) = true.
Proof.
  unfold ntpath.basename, ntpath.split.
  destruct (ntpath.splitdrive p) as [d rest]. simpl.
  apply skipn_forallb. intros j Hj.
  now rewrite (@scan_back_clear rest (length rest) j Hj).
Qed.

(** ** The steps of [prettify_name] *)

Lemma basename_step_reduced (n : pystr) : path_reduced n (basename_step n).
Proof.
  unfold path_reduced, basename_step.
  destruct (contains "\"%char n); [right|left; now split].
  repeat split; [apply basename_suffix|apply basename_no_sep].
Qed.

Lemma bang_step_fires (n pre seg : pystr) :
  after_last "!"%char n pre seg -> blank seg = false ->
  bang_step n = strip seg.
Proof.
  intros A B. unfold bang_step.
  assert (C : contains "!"%char n = true).
  { destruct A as [-> _]. rewrite contains_app. simpl. apply orb_true_r. }
  rewrite C. destruct (last_split_after _ _ C) as (pre' & A').
  rewrite (after_last_unique A' A).
  destruct (strip seg) eqn:E; [|reflexivity].
  apply strip_nil_iff in E. congruence.
Qed.

Lemma bang_step_falls_back (n pre seg : pystr) :
  after_last "!"%char n pre seg -> blank seg = true ->
  bang_step n = n.
Proof.
  intros A B. unfold bang_step.
  assert (C : contains "!"%char n = true).
  { destruct A as [-> _]. rewrite contains_app. simpl. apply orb_true_r. }
  rewrite C. destruct (last_split_after _ _ C) as (pre' & A').
  rewrite (after_last_unique A' A).
  apply strip_nil_iff in B. now rewrite B.
Qed.

Lemma bang_step_applied (n : pystr) : bang_applied n (bang_step n).
Proof.
  unfold bang_applied.
  destruct (contains "!"%char n) eqn:C.
  - right. destruct (last_split_after _ _ C) as (pre & A).
    exists pre, (last (split "!"%char n) []). split; [exact A|].
    destruct (blank (last (split "!"%char n) [])) eqn:B.
    + left. split; [reflexivity|]. exact (bang_step_falls_back A B).
    + right. split; [reflexivity|]. rewrite (bang_step_fires A B).
      split; [apply strip_trimmed|].
      intros E. apply strip_nil_iff in E. congruence.
  - left. split; [reflexivity|]. unfold bang_step. now rewrite C.
Qed.

(** The ['!'] rule never erases a name. *)
Lemma bang_step_keeps_nonempty (n : pystr) : bang_step n = [] -> n = [].
Proof.
  unfold bang_step. destruct (contains "!"%char n); [|auto].
  destruct (strip _); [auto|discriminate].
Qed.

Lemma exe_step_nil_iff (n : pystr) :
  exe_step n = [] <-> n = [] \/ is_exe_suffix n.
Proof.
  split.
  - intros E. destruct (exe_step_stripped n) as [(ext & En & Hx)|[En _]].
    + right. rewrite E in En. simpl in En. now subst ext.
    + left. congruence.
  - intros [->|H]; [reflexivity|].
    unfold is_exe_suffix in H. unfold exe_step. rewrite H. simpl.
    apply (f_equal (@length _)) in H. rewrite length_lower in H.
    unfold drop_last. rewrite H. reflexivity.
Qed.

(** Each step relation has one outcome only. *)

Lemma path_reduced_fun (n a b : pystr) :
  path_reduced n a -> path_reduced n b -> a = b.
Proof.
  intros [[Ca ->]|(Ca & -> & _)] [[Cb ->]|(Cb & -> & _)]; congruence.
Qed.

Lemma after_last_contains (c : ascii) (n pre seg : pystr) :
  after_last c n pre seg -> contains c n = true.
Proof.
  intros [-> _]. rewrite contains_app. simpl.
  rewrite Ascii.eqb_refl. apply orb_true_r.
Qed.

Lemma bang_applied_fun (n a b : pystr) :
  bang_applied n a -> bang_applied n b -> a = b.
Proof.
  intros [[Ca ->]|(pa & sa & Aa & Ha)] [[Cb ->]|(pb & sb & Ab & Hb)].
  - reflexivity.
  - apply after_last_contains in Ab. congruence.
  - apply after_last_contains in Aa. congruence.
  - rewrite (after_last_unique Ab Aa) in Hb.
    destruct Ha as [[Ba ->]|(Ba & Ta & _)], Hb as [[Bb ->]|(Bb & Tb & _)];
      try congruence.
    now rewrite (trimmed_strip Ta), (trimmed_strip Tb).
Qed.

Lemma is_exe_suffix_length (ext : pystr) : is_exe_suffix ext -> length ext = 4%nat.
Proof.
  unfold is_exe_suffix. intros H.
  apply (f_equal (@length _)) in H. now rewrite length_lower in H.
Qed.

Lemma exe_stripped_fun (n a b : pystr) :
  exe_stripped n a -> exe_stripped n b -> a = b.
Proof.
  intros [(ea & Ea & Xa)|[-> Na]] [(eb & Eb & Xb)|[-> Nb]].
  - apply is_exe_suffix_length in Xa, Xb.
    assert (La : a = firstn (length n - 4) n).
    { rewrite Ea, length_app, Xa, firstn_app.
      replace (length a + 4 - 4 - length a)%nat with 0%nat by lia.
      rewrite firstn_all2 by lia. simpl. now rewrite app_nil_r. }
    assert (Lb : b = firstn (length n - 4) n).
    { rewrite Eb, length_app, Xb, firstn_app.
      replace (length b + 4 - 4 - length b)%nat with 0%nat by lia.
      rewrite firstn_all2 by lia. simpl. now rewrite app_nil_r. }
    congruence.
  - exfalso. exact (Nb a ea Ea Xa).
  - exfalso. exact (Na b eb Eb Xb).
  - reflexivity.
Qed.

(** C5, counterexample.  A forward slash is a path separator, and a string
    that contains forward slashes only is not reduced to its final path
    component: [dir/sub/App.exe] gives [dir/sub/App], not [App]. *)
Lemma forward_slash_not_reduced :
  contains "/"%char (py "dir/sub/App.exe") = true
  /\ ntpath.is_sep "/"%char = true
  /\ ntpath.basename (py "dir/sub/App.exe") = py "App.exe"
  /\ prettify_name (py "dir/sub/App.exe") = py "dir/sub/App"
  /\ prettify_name (py "dir/sub/App.exe") <> py "App".
Proof. repeat split. discriminate. Qed.

(** C5, amended.  [prettify_name] applies four steps in this order: it trims the
    surrounding whitespace; if the trimmed string contains a backslash it
    keeps the final path component only (a suffix without separators);
    then it applies the ['!'] rule; then it removes a trailing [.exe],
    whatever the letter case.  The four steps determine the result: a
    string is the outcome of the chain exactly when it is what
    [prettify_name] returns.  On [C:\Apps\Foo.EXE] the result is [Foo]. *)
Theorem prettify_name_steps (raw : pystr) :
  (forall r,
      (exists n0 n1 n2,
          trimmed raw n0
          /\ path_reduced n0 n1
          /\ bang_applied n1 n2
          /\ exe_stripped n2 r)
      <-> r = prettify_name raw)
  /\ prettify_name (py "C:\Apps\Foo.EXE") = py "Foo".
Proof.
  split; [|reflexivity].
  intros r. split.
  - intros (n0 & n1 & n2 & T & P & B & X).
    apply trimmed_strip in T. subst n0.
    rewrite (path_reduced_fun P (basename_step_reduced (strip raw))) in B.
    rewrite (bang_applied_fun B (bang_step_applied _)) in X.
    exact (exe_stripped_fun X (exe_step_stripped _)).
  - intros ->.
    exists (strip raw), (basename_step (strip raw)),
      (bang_step (basename_step (strip raw))).
    split; [apply strip_trimmed|].
    split; [apply basename_step_reduced|].
    split; [apply bang_step_applied|apply exe_step_stripped].
Qed.

(** ** The ['!'] rule inside [prettify_name] *)

Lemma end_tight_suffix (s h t : pystr) :
  s = h ++ t ->
  (forall c, hd_error (rev s) = Some c -> isspace c = false) ->
  forall c, hd_error (rev t) = Some c -> isspace c = false.
Proof.
  intros -> H c Hc. apply H. rewrite rev_app_distr.
  destruct (rev t); simpl in *; congruence.
Qed.

Lemma basename_step_end_tight (raw : pystr) (c : ascii) :
  hd_error (rev (basename_step (strip raw))) = Some c -> isspace c = false.
Proof.
  destruct (strip_trimmed raw) as (l & r & _ & _ & _ & _ & Hend).
  unfold basename_step. destruct (contains "\"%char (strip raw)); [|apply Hend].
  destruct (basename_suffix (strip raw)) as (head & E).
  revert c. exact (@end_tight_suffix _ _ _ E Hend).
Qed.

Lemma blank_end_tight_nil (pre seg : pystr) (c : ascii) :
  blank seg = true ->
  (forall x, hd_error (rev (pre ++ c :: seg)) = Some x -> isspace x = false) ->
  seg = [].
Proof.
  intros B H. destruct seg as [|y seg] using rev_ind; [reflexivity|].
  exfalso. clear IHseg.
  rewrite blank_app in B. apply andb_true_iff in B as [_ B].
  simpl in B. rewrite andb_true_r in B.
  specialize (H y).
  change (pre ++ c :: seg ++ [y]) with (pre ++ (c :: seg) ++ [y]) in H.
  rewrite app_assoc, rev_app_distr in H. simpl in H.
  rewrite (H eq_refl) in B. discriminate.
Qed.

Lemma exe_step_after_bang (pre : pystr) :
  exe_step (pre ++ ["!"%char]) = pre ++ ["!"%char].
Proof.
  destruct (exe_step_stripped (pre ++ ["!"%char])) as [(ext & E & X)|[E _]];
    [exfalso|exact E].
  pose proof (is_exe_suffix_length X) as L.
  destruct ext as [|a [|b [|c [|d [|? ?]]]]]; try discriminate.
  apply (f_equal (@rev _)) in E. rewrite !rev_app_distr in E. simpl in E.
  injection E as E _. subst d.
  unfold is_exe_suffix in X. simpl in X. injection X as _ _ _ X.
  vm_compute in X. discriminate.
Qed.

Lemma prettify_name_fires (raw pre seg : pystr) :
  after_last "!"%char (basename_step (strip raw)) pre seg ->
  blank seg = false ->
  prettify_name raw = exe_step (strip seg).
Proof.
  intros A B. unfold prettify_name. now rewrite (bang_step_fires A B).
Qed.

Lemma prettify_name_falls_back (raw pre seg : pystr) :
  after_last "!"%char (basename_step (strip raw)) pre seg ->
  blank seg = true ->
  prettify_name raw = basename_step (strip raw).
Proof.
  intros A B. unfold prettify_name. rewrite (bang_step_falls_back A B).
  destruct A as [E _].
  assert (S : seg = []).
  { apply (@blank_end_tight_nil pre seg "!"%char B).
    rewrite <- E. intros x. apply basename_step_end_tight. }
  subst seg. rewrite E. apply exe_step_after_bang.
Qed.

(** C6. Let [name] be the identifier once trimmed and reduced to its final
    path component.  When [name] contains a ['!'], write [seg] for what
    follows its last ['!'].  If [seg] is not blank, the ['!'] rule replaces
    [name] by [seg] (without its surrounding whitespace) and the result is
    that value with a trailing [.exe] removed.  If [seg] is blank, the rule
    leaves [name] as it was before the rule, and [prettify_name] returns
    that value verbatim; so [Package!   !] is returned unchanged. *)
Theorem bang_rule_nonblank_only (raw : pystr) :
  (contains "!"%char (basename_step (strip raw)) = true ->
   exists pre seg,
     after_last "!"%char (basename_step (strip raw)) pre seg
     /\ (blank seg = false ->
         bang_step (basename_step (strip raw)) = strip seg
         /\ prettify_name raw = exe_step (strip seg))
     /\ (blank seg = true ->
         bang_step (basename_step (strip raw)) = basename_step (strip raw)
         /\ prettify_name raw = basename_step (strip raw)))
  /\ prettify_name (py "Package!   !") = py "Package!   !"
  /\ prettify_name (py "Package!Sub!MainApp") = py "MainApp".
Proof.
  split; [|split; reflexivity].
  intros C. destruct (last_split_after _ _ C) as (pre & A).
  exists pre, (last (split "!"%char (basename_step (strip raw))) []).
  split; [exact A|]. split; intros B.
  - split; [exact (bang_step_fires A B)|exact (prettify_name_fires _ A B)].
  - split; [exact (bang_step_falls_back A B)|exact (prettify_name_falls_back _ A B)].
Qed.

Lemma bang_rule_nonblank_only_witness :
  prettify_name (py "  Package!   !  ") = py "Package!   !"
  /\ prettify_name (py "C:\x\Pkg! App.exe ") = py "App".
Proof.
  split.
  - destruct (proj1 (bang_rule_nonblank_only (py "  Package!   !  ")) eq_refl)
      as (pre & seg & A & _ & Hb).
    assert (A0 : after_last "!"%char (basename_step (strip (py "  Package!   !  ")))
                   (py "Package!   ") []) by (split; reflexivity).
    rewrite (after_last_unique A A0) in Hb.
    exact (proj2 (Hb eq_refl)).
  - destruct (proj1 (bang_rule_nonblank_only (py "C:\x\Pkg! App.exe ")) eq_refl)
      as (pre & seg & A & Hn & _).
    assert (A0 : after_last "!"%char (basename_step (strip (py "C:\x\Pkg! App.exe ")))
                   (py "Pkg") (py " App.exe")) by (split; reflexivity).
    rewrite (after_last_unique A A0) in Hn.
    exact (proj2 (Hn eq_refl)).
Defined.

(** C10, counterexample.  The segment after the last ['!'] of [Pkg! App.exe]
    is not blank and its trimmed form is [App.exe], yet [prettify_name]
    returns [App]: the [.exe] step still runs on what the rule returns. *)
Lemma trimmed_segment_not_returned :
  after_last "!"%char (basename_step (strip (py "Pkg! App.exe")))
    (py "Pkg") (py " App.exe")
  /\ blank (py " App.exe") = false
  /\ strip (py " App.exe") = py "App.exe"
  /\ prettify_name (py "Pkg! App.exe") = py "App"
  /\ prettify_name (py "Pkg! App.exe") <> strip (py " App.exe").
Proof. repeat split. discriminate. Qed.

(** C10, amended. When the ['!'] rule fires, what it returns is the segment after
    the last ['!'] with its leading and trailing whitespace removed, not
    the segment as it stands: for a name (trimmed and path-reduced) whose
    segment after the last ['!'] is not blank, the rule yields the trimmed
    segment, which is not empty; [prettify_name] returns it after the
    [.exe] step, hence the trimmed segment itself whenever that does not
    end in [.exe].  The reduction to the final path component is triggered
    by a backslash only: a trimmed string without backslash goes to the
    ['!'] rule as it is, even when it contains a forward slash. *)
Theorem bang_rule_returns_trimmed_segment :
  (forall raw pre seg,
      after_last "!"%char (basename_step (strip raw)) pre seg ->
      blank seg = false ->
      bang_step (basename_step (strip raw)) = strip seg
      /\ trimmed seg (strip seg)
      /\ strip seg <> []
      /\ prettify_name raw = exe_step (strip seg)
      /\ (endswith (lower (strip seg)) (py ".exe") = false ->
          prettify_name raw = strip seg))
  /\ (forall raw,
         contains "\"%char (strip raw) = false ->
         basename_step (strip raw) = strip raw
         /\ prettify_name raw = exe_step (bang_step (strip raw)))
  /\ (forall raw,
         contains "\"%char (strip raw) = true ->
         basename_step (strip raw) = ntpath.basename (strip raw))
  /\ prettify_name (py "Pkg!  App  ") = py "App"
  /\ prettify_name (py "dir/sub/App.exe") = py "dir/sub/App"
  /\ prettify_name (py "dir\sub/App.exe") = py "App".
Proof.
  split; [|split; [|split; [|repeat split]]].
  - intros raw pre seg A B.
    split; [exact (bang_step_fires A B)|].
    split; [apply strip_trimmed|].
    split; [intros E; apply strip_nil_iff in E; congruence|].
    split; [exact (prettify_name_fires _ A B)|].
    intros X. rewrite (prettify_name_fires _ A B). unfold exe_step. now rewrite X.
  - intros raw C. unfold prettify_name, basename_step. rewrite C. now split.
  - intros raw C. unfold basename_step. now rewrite C.
Qed.

Lemma bang_rule_returns_trimmed_segment_witness :
  prettify_name (py "Pkg!  App  ") = py "App"
  /\ basename_step (strip (py " a/b ")) = py "a/b".
Proof.
  destruct bang_rule_returns_trimmed_segment as (H1 & H2 & _).
  split.
  - assert (A : after_last "!"%char (basename_step (strip (py "Pkg!  App  ")))
                  (py "Pkg") (py "  App")) by (split; reflexivity).
    destruct (H1 (py "Pkg!  App  ") _ _ A eq_refl) as (_ & _ & _ & _ & H).
    exact (H eq_refl).
  - exact (proj1 (H2 (py " a/b ") eq_refl)).
Defined.

(** ** Emptiness of the friendly name *)

(** C2, counterexample.  The value name [.rkr] decodes to [.exe], which is
    not empty, and its friendly name is the empty string: nothing falls back
    to the pre-normalization string. *)
Lemma friendly_name_can_be_empty :
  rot_13 (py ".rkr") = py ".exe"
  /\ decode_record (py ".rkr")
       (binary_value [x00; x00; x00; x00; x05; x00; x00; x00])
     = Ok ([], 5%Z).
Proof. split; reflexivity. Qed.

(** C2, amended.  Decoding a bytes payload always yields the normalized
    name (and whatever the data are, a result that is returned carries the
    normalized name), and that name can be empty: it is empty exactly when
    the identifier, once trimmed, reduced to its final path component and
    passed through the ['!'] rule, is empty or is [.exe] in some letter
    case.  The only fallback is the one inside the ['!'] rule, so that rule
    never turns a non-empty name into an empty one. *)
Theorem friendly_name_empty_iff (value_name : pystr) (payload : pybytes) :
  (exists count,
      decode_record value_name (DataBytes payload)
      = Ok (prettify_name (rot_13 value_name), count))
  /\ (forall value_data name count,
         decode_record value_name value_data = Ok (name, count) ->
         name = prettify_name (rot_13 value_name))
  /\ (prettify_name (rot_13 value_name) = []
      <-> bang_step (basename_step (strip (rot_13 value_name))) = []
          \/ is_exe_suffix (bang_step (basename_step (strip (rot_13 value_name)))))
  /\ (forall name, bang_step name = [] -> name = []).
Proof.
  split; [|split; [|split]].
  - exists (payload_count payload). now apply decode_record_ok.
  - intros value_data name count. rewrite decode_record_spec.
    destruct (decodable value_data); [|discriminate].
    intros H. now injection H as <- _.
  - unfold prettify_name. apply exe_step_nil_iff.
  - apply bang_step_keeps_nonempty.
Qed.

Lemma friendly_name_empty_iff_witness :
  prettify_name (rot_13 (py " P:\k\.RKR ")) = []
  /\ bang_step (py "!") = py "!".
Proof.
  destruct (friendly_name_empty_iff (py " P:\k\.RKR ") [x01]) as (_ & _ & H & K).
  split.
  - apply H. right. reflexivity.
  - reflexivity.
Defined.

(** ** Dictionaries and aggregation *)

Lemma dict_get_set_same (d : dict) (k : pystr) (v z : Z) :
  dict_get (dict_set d k v) k z = v.
Proof.
  induction d as [|[k' v'] d IH]; simpl.
  - now rewrite str_eqb_refl.
  - destruct (str_eqb k' k) eqn:E; simpl; rewrite E; [reflexivity|exact IH].
Qed.

Lemma dict_get_set_other (d : dict) (k k' : pystr) (v z : Z) :
  k <> k' -> dict_get (dict_set d k v) k' z = dict_get d k' z.
Proof.
  intros N. induction d as [|[k0 v0] d IH]; simpl.
  - apply str_eqb_neq in N. now rewrite N.
  - destruct (str_eqb k0 k) eqn:E; simpl.
    + apply str_eqb_eq in E. subst k0.
      apply str_eqb_neq in N. now rewrite N.
    + destruct (str_eqb k0 k'); [reflexivity|exact IH].
Qed.

Lemma dict_mem_set (d : dict) (k k' : pystr) (v : Z) :
  dict_mem (dict_set d k v) k' = str_eqb k k' || dict_mem d k'.
Proof.
  unfold dict_mem. induction d as [|[k0 v0] d IH]; simpl.
  - reflexivity.
  - destruct (str_eqb k0 k) eqn:E; simpl.
    + apply str_eqb_eq in E. subst k0.
      destruct (str_eqb k k'); reflexivity.
    + rewrite IH. destruct (str_eqb k0 k'), (str_eqb k k'); reflexivity.
Qed.

Lemma dict_get_accumulate (d : dict) (n m : pystr) (c : Z) :
  dict_get (accumulate d n c) m 0
  = (dict_get d m 0 + if str_eqb n m then c else 0)%Z.
Proof.
  unfold accumulate. destruct (str_eqb n m) eqn:E.
  - apply str_eqb_eq in E. subst m. apply dict_get_set_same.
  - apply str_eqb_neq in E. rewrite (dict_get_set_other _ _ _ E). lia.
Qed.

Lemma sum_counts_cons (m : pystr) (r : pystr * reg_data) (l : list (pystr * reg_data)) :
  sum_counts m (r :: l)
  = ((if str_eqb (friendly_name r) m then record_count r else 0)
     + sum_counts m l)%Z.
Proof.
  unfold sum_counts. simpl.
  destruct (str_eqb (friendly_name r) m); reflexivity.
Qed.

Lemma dict_get_aggregate (records : list (pystr * reg_data)) (d : dict) (m : pystr) :
  dict_get (aggregate records d) m 0
  = (dict_get d m 0 + sum_counts m records)%Z.
Proof.
  revert d. induction records as [|r l IH]; intros d.
  - unfold sum_counts. simpl. lia.
  - unfold aggregate in *. simpl. rewrite IH, dict_get_accumulate, sum_counts_cons.
    lia.
Qed.

Lemma dict_mem_aggregate (records : list (pystr * reg_data)) (d : dict) (m : pystr) :
  dict_mem (aggregate records d) m
  = dict_mem d m || existsb (fun r => str_eqb (friendly_name r) m) records.
Proof.
  revert d. induction records as [|r l IH]; intros d.
  - simpl. now rewrite orb_false_r.
  - unfold aggregate in *. simpl. rewrite IH. unfold accumulate.
    rewrite dict_mem_set.
    destruct (str_eqb (friendly_name r) m), (dict_mem d m); reflexivity.
Qed.

Lemma sum_counts_perm (m : pystr) (l l' : list (pystr * reg_data)) :
  Permutation l l' -> sum_counts m l = sum_counts m l'.
Proof.
  induction 1 as [|x l l' _ IH|x y l|l l' l'' _ IH1 _ IH2].
  - reflexivity.
  - rewrite !sum_counts_cons. lia.
  - rewrite !sum_counts_cons. lia.
  - congruence.
Qed.

Lemma aggregate_app (a b : list (pystr * reg_data)) (d : dict) :
  aggregate (a ++ b) d = aggregate b (aggregate a d).
Proof. apply fold_left_app. Qed.

Lemma skipn_nth_error (A : Type) (l : list A) (i : nat) (x : A) :
  nth_error l i = Some x -> skipn i l = x :: skipn (S i) l.
Proof.
  revert i. induction l as [|y l IH]; intros [|i]; simpl; try discriminate.
  - congruence.
  - apply IH.
Qed.

Lemma values_decodable_check (reg : registry) :
  forallb (fun r => decodable (snd r)) (all_records reg) = true ->
  values_decodable reg.
Proof. intros H r. revert r. now apply forallb_forall. Qed.

(** A store that holds bytes only has decodable values. *)
Lemma values_decodable_bytes (reg : registry) :
  (forall r, In r (all_records reg) -> exists b, snd r = DataBytes b) ->
  values_decodable reg.
Proof. intros H r Hr. destruct (H r Hr) as (b & ->). reflexivity. Qed.

(** With fuel above the number of values left the loop ends: it has
    processed every remaining value in order, or it has raised the
    [TypeError] of a value that cannot be decoded. *)
Lemma enum_loop_result (fuel : nat) (key : list (pystr * reg_data)) (i : nat) (d : dict) :
  (length key - i < fuel)%nat ->
  enum_loop fuel key i d
  = Some (if forallb (fun r => decodable (snd r)) (skipn i key)
          then Ok (aggregate (skipn i key) d)
          else Raise TypeError).
Proof.
  revert i d. induction fuel as [|fuel IH]; intros i d H; [lia|].
  cbn [enum_loop]. unfold EnumValue.
  destruct (nth_error key i) as [[value_name value_data]|] eqn:E.
  - rewrite (skipn_nth_error _ _ E). cbn [forallb snd].
    rewrite decode_record_spec.
    destruct (decodable value_data); [|reflexivity].
    cbn [andb]. unfold aggregate at 1. cbn [fold_left].
    replace (i + 1)%nat with (S i) by lia.
    apply IH.
    assert (i < length key)%nat by (apply nth_error_Some; congruence). lia.
  - apply nth_error_None in E. now rewrite skipn_all2.
Qed.

Lemma enum_loop_aggregate (fuel : nat) (key : list (pystr * reg_data)) (i : nat) (d : dict) :
  (length key - i < fuel)%nat ->
  (forall r, In r (skipn i key) -> decodable (snd r) = true) ->
  enum_loop fuel key i d = Some (Ok (aggregate (skipn i key) d)).
Proof.
  intros H D. rewrite enum_loop_result by exact H.
  replace (forallb (fun r => decodable (snd r)) (skipn i key)) with true;
    [reflexivity|].
  symmetry. now apply forallb_forall.
Qed.

Lemma guid_loop_aggregate (reg : registry) (guids : list pystr) (d : dict) :
  (forall guid e, In guid guids ->
     reg (key_path guid) = OpenFails e -> e = FileNotFoundError) ->
  (forall r, In r (flat_map (section_records reg) guids) ->
     decodable (snd r) = true) ->
  guid_loop reg guids d
  = Some (Ok (aggregate (flat_map (section_records reg) guids) d)).
Proof.
  revert d. induction guids as [|guid rest IH]; intros d H D; [reflexivity|].
  cbn [guid_loop flat_map] in *. rewrite aggregate_app.
  assert (H' : forall g e, In g rest ->
             reg (key_path g) = OpenFails e -> e = FileNotFoundError).
  { intros g e Hg. apply H. now right. }
  assert (D' : forall r, In r (flat_map (section_records reg) rest) ->
             decodable (snd r) = true).
  { intros r Hr. apply D. apply in_or_app. now right. }
  assert (D0 : forall r, In r (section_records reg guid) ->
             decodable (snd r) = true).
  { intros r Hr. apply D. apply in_or_app. now left. }
  unfold section_records at 2. unfold section_records in D0.
  destruct (reg (key_path guid)) as [values|e] eqn:E.
  - rewrite enum_loop_aggregate; [|lia|exact D0].
    cbn [skipn]. now apply IH.
  - rewrite (H guid e (or_introl eq_refl) E). now apply IH.
Qed.

Lemma get_userassist_usage_aggregate (reg : registry) :
  sections_readable reg -> values_decodable reg ->
  get_userassist_usage reg = Some (Ok (aggregate (all_records reg) [])).
Proof. intros H D. now apply guid_loop_aggregate. Qed.

Lemma values_decodable_perm (reg reg' : registry) :
  values_decodable reg ->
  Permutation (all_records reg) (all_records reg') ->
  values_decodable reg'.
Proof.
  intros D P r Hr. apply D. apply (Permutation_in _ (Permutation_sym P) Hr).
Qed.

(** C7. When the usage store can be read (each section opens or is absent,
    and the data of every value can be decoded, as bytes always can),
    [get_userassist_usage] returns a dictionary in which the value at every
    name is the sum of the counts of all records that normalize to that
    name, and a name is a key exactly when some record normalizes to it.
    The values do not depend on the order of the records: a store holding
    the same records in another order gives the same value at every
    name. *)
Theorem usage_counts_are_summed (reg : registry) :
  sections_readable reg ->
  values_decodable reg ->
  exists usage_dict,
    get_userassist_usage reg = Some (Ok usage_dict)
    /\ (forall name,
           dict_get usage_dict name 0 = sum_counts name (all_records reg))
    /\ (forall name,
           dict_mem usage_dict name
           = existsb (fun r => str_eqb (friendly_name r) name) (all_records reg))
    /\ (forall reg',
           sections_readable reg' ->
           Permutation (all_records reg) (all_records reg') ->
           exists usage_dict',
             get_userassist_usage reg' = Some (Ok usage_dict')
             /\ forall name,
                 dict_get usage_dict' name 0 = dict_get usage_dict name 0).
Proof.
  intros H D. exists (aggregate (all_records reg) []).
  split; [now apply get_userassist_usage_aggregate|].
  split; [|split].
  - intros name. now rewrite dict_get_aggregate.
  - intros name. now rewrite dict_mem_aggregate.
  - intros reg' H' P. exists (aggregate (all_records reg') []).
    split.
    + apply get_userassist_usage_aggregate; [exact H'|].
      exact (@values_decodable_perm reg reg' D P).
    + intros name. rewrite !dict_get_aggregate.
      now rewrite (sum_counts_perm name P).
Qed.

Lemma sections_readable_two : sections_readable reg_two_sections.
Proof. intros guid e [<-|[<-|[]]]; vm_compute; congruence. Qed.

Lemma usage_counts_are_summed_witness :
  exists usage_dict,
    get_userassist_usage reg_two_sections = Some (Ok usage_dict)
    /\ dict_get usage_dict (py "Notepad") 0 = 8%Z.
Proof.
  destruct (@usage_counts_are_summed reg_two_sections sections_readable_two
              (@values_decodable_check reg_two_sections eq_refl))
    as (d & E & S & _).
  exists d. split; [exact E|]. rewrite S. reflexivity.
Defined.

(** ** Absent sources *)







(** ** [list.sort] *)

Section PySortFacts.

Variables (A K : Type).
Variable key : A -> K.
Variable ltb : K -> K -> bool.

Hypothesis ltb_asym : forall a b, ltb a b = true -> ltb b a = false.
Hypothesis ltb_negtrans :
  forall a b c, ltb b a = false -> ltb c b = false -> ltb c a = false.

Lemma sort_insert_perm (reverse : bool) (x : A) (l : list A) :
  Permutation (sort_insert key ltb reverse x l) (x :: l).
Proof.
  induction l as [|y r IH]; simpl; [reflexivity|].
  destruct (goes_before key ltb reverse y x); [|reflexivity].
  rewrite IH. apply perm_swap.
Qed.

Lemma list_sort_perm (reverse : bool) (l : list A) :
  Permutation (list_sort key ltb reverse l) l.
Proof.
  induction l as [|x l IH]; simpl; [reflexivity|].
  unfold list_sort in IH. rewrite sort_insert_perm. now apply perm_skip.
Qed.

Lemma in_order_trans (reverse : bool) (x y z : A) :
  in_order key ltb reverse x y -> in_order key ltb reverse y z ->
  in_order key ltb reverse x z.
Proof.
  unfold in_order, goes_before. destruct reverse; intros H1 H2.
  - exact (ltb_negtrans H2 H1).
  - exact (ltb_negtrans H1 H2).
Qed.

Lemma goes_before_in_order (reverse : bool) (x y : A) :
  goes_before key ltb reverse y x = true -> in_order key ltb reverse y x.
Proof.
  unfold in_order, goes_before. destruct reverse; apply ltb_asym.
Qed.

Lemma sort_insert_sorted (reverse : bool) (x : A) (l : list A) :
  StronglySorted (in_order key ltb reverse) l ->
  StronglySorted (in_order key ltb reverse) (sort_insert key ltb reverse x l).
Proof.
  induction 1 as [|y r Hs IH Hy]; simpl.
  - constructor; constructor.
  - destruct (goes_before key ltb reverse y x) eqn:E.
    + constructor; [exact IH|].
      apply Forall_forall. intros z Hz.
      apply (Permutation_in _ (sort_insert_perm reverse x r)) in Hz.
      destruct Hz as [<-|Hz].
      * now apply goes_before_in_order.
      * rewrite Forall_forall in Hy. now apply Hy.
    + constructor; [now constructor|].
      constructor; [exact E|].
      apply Forall_forall. intros z Hz. rewrite Forall_forall in Hy.
      apply (in_order_trans E). now apply Hy.
Qed.

Lemma list_sort_sorted (reverse : bool) (l : list A) :
  StronglySorted (in_order key ltb reverse) (list_sort key ltb reverse l).
Proof.
  induction l as [|x l IH]; simpl; [constructor|].
  now apply sort_insert_sorted.
Qed.

End PySortFacts.

(** String comparison is a strict order in which any two strings compare. *)



Lemma key_ltb_asym (a b : bool * Z) : key_ltb a b = true -> key_ltb b a = false.
Proof.
  destruct a as [[] x], b as [[] y]; unfold key_ltb; simpl; try congruence;
    intros H; apply Z.ltb_lt in H; apply Z.ltb_ge; lia.
Qed.

Lemma key_ltb_negtrans (a b c : bool * Z) :
  key_ltb b a = false -> key_ltb c b = false -> key_ltb c a = false.
Proof.
  destruct a as [[] x], b as [[] y], c as [[] z]; unfold key_ltb; simpl;
    try congruence;
    intros H1 H2; apply Z.ltb_ge in H1; apply Z.ltb_ge in H2; apply Z.ltb_ge; lia.
Qed.

(** ** Export *)












(** ** Ranking *)

(** What [main] sorts into: no entry has a smaller key than a later one. *)
Lemma final_list_sorted (start_menu_apps : list pystr) (usage_dict : dict) :
  StronglySorted
    (fun x y => key_ltb (sort_key x) (sort_key y) = false)
    (final_list start_menu_apps usage_dict).
Proof.
  exact (@list_sort_sorted _ _ sort_key key_ltb key_ltb_asym key_ltb_negtrans
           true _).
Qed.

Lemma final_list_perm (start_menu_apps : list pystr) (usage_dict : dict) :
  Permutation (final_list start_menu_apps usage_dict)
    (combined_list start_menu_apps usage_dict).
Proof. apply list_sort_perm. Qed.

(** The entries that are not Start Menu shortcuts come first: an entry
    that follows a Start Menu entry is a Start Menu entry. *)
Lemma final_list_shortcuts_last (start_menu_apps : list pystr) (usage_dict : dict)
  (l1 l2 l3 : list entry) (x y : entry) :
  final_list start_menu_apps usage_dict = l1 ++ x :: l2 ++ y :: l3 ->
  is_start_menu x = true -> is_start_menu y = true.
Proof.
  intros E Hx. pose proof (final_list_sorted start_menu_apps usage_dict) as S.
  rewrite E in S. clear E.
  induction l1 as [|z l1 IH]; simpl in S.
  - apply StronglySorted_inv in S as [_ F]. rewrite Forall_forall in F.
    assert (I : In y (l2 ++ y :: l3)) by (apply in_or_app; right; now left).
    specialize (F y I). unfold key_ltb, sort_key in F. simpl in F.
    rewrite Hx in F. simpl in F.
    destruct (is_start_menu y); [reflexivity|discriminate].
  - apply StronglySorted_inv in S as [S _]. now apply IH.
Qed.

(** C1, evaluated on the example of the specification: the entry that is
    not a Start Menu shortcut is placed first. *)
Theorem final_list_example :
  final_list [py "Notepad"] [(py "Notepad", 2%Z); (py "Paint", 10%Z)]
  = [(py "Paint", 10%Z, false); (py "Notepad", 2%Z, true)].
Proof. reflexivity. Qed.

(* ================================================================= *)
(** * Part III: further properties of the code *)
(* ================================================================= *)

(** ** What [prettify_name] keeps of its input *)

Lemma substring_refl (s : pystr) : substring s s.
Proof. exists [], []. simpl. now rewrite app_nil_r. Qed.

Lemma substring_trans (a b c : pystr) :
  substring a b -> substring b c -> substring a c.
Proof.
  intros (x & y & ->) (u & v & ->).
  exists (u ++ x), (y ++ v). now rewrite <- !app_assoc.
Qed.

Lemma substring_length (t s : pystr) : substring t s -> (length t <= length s)%nat.
Proof. intros (a & b & ->). rewrite !length_app. lia. Qed.

Lemma substring_contains (c : ascii) (t s : pystr) :
  substring t s -> contains c s = false -> contains c t = false.
Proof.
  intros (a & b & ->). rewrite !contains_app.
  destruct (contains c t); [|reflexivity].
  now rewrite orb_true_r.
Qed.

Lemma strip_substring (s : pystr) : substring (strip s) s.
Proof.
  destruct (strip_trimmed s) as (l & r & E & _). now exists l, r.
Qed.

Lemma basename_step_substring (n : pystr) : substring (basename_step n) n.
Proof.
  unfold basename_step. destruct (contains "\"%char n); [|apply substring_refl].
  destruct (basename_suffix n) as (head & E).
  exists head, []. now rewrite app_nil_r.
Qed.

Lemma bang_step_substring (n : pystr) : substring (bang_step n) n.
Proof.
  pose proof (bang_step_applied n) as H.
  remember (bang_step n) as t eqn:Et. clear Et.
  destruct H as [[_ ->]|(pre & seg & [E _] & H)]; [apply substring_refl|].
  destruct H as [[_ ->]|(_ & (l & r & Es & _) & _)]; [apply substring_refl|].
  exists (pre ++ "!"%char :: l), r. subst n seg.
  now rewrite <- app_assoc.
Qed.

Lemma exe_step_substring (n : pystr) : substring (exe_step n) n.
Proof.
  destruct (exe_step_stripped n) as [(ext & E & _)|[-> _]];
    [|apply substring_refl].
  now exists [], ext.
Qed.

(** X1. The friendly name is cut out of the raw identifier: it is a run of
    consecutive characters of the input, so it is never longer than the
    input and contains no character the input does not contain. *)
Theorem prettify_name_substring (raw : pystr) :
  substring (prettify_name raw) raw
  /\ (length (prettify_name raw) <= length raw)%nat
  /\ (forall c, In c (prettify_name raw) -> In c raw).
Proof.
  assert (S : substring (prettify_name raw) raw).
  { unfold prettify_name.
    eapply substring_trans; [apply exe_step_substring|].
    eapply substring_trans; [apply bang_step_substring|].
    eapply substring_trans; [apply basename_step_substring|].
    apply strip_substring. }
  split; [exact S|]. split; [now apply substring_length|].
  destruct S as (a & b & E). intros c H. rewrite E.
  apply in_or_app. right. apply in_or_app. now left.
Qed.

Lemma no_sep_no_backslash (s : pystr) :
  forallb (fun c => negb (ntpath.is_sep c)) s = true ->
  contains "\"%char s = false.
Proof.
  induction s as [|c s IH]; [reflexivity|].
  unfold contains in *. cbn [forallb existsb].
  intros H. apply andb_true_iff in H as [Hc Hs].
  rewrite (IH Hs), orb_false_r.
  unfold ntpath.is_sep, ntpath.sep in Hc.
  rewrite (Ascii.eqb_sym "\"%char c).
  destruct (Ascii.eqb c "\"%char); [discriminate|reflexivity].
Qed.

Lemma basename_step_no_backslash (n : pystr) :
  contains "\"%char (basename_step n) = false.
Proof.
  unfold basename_step. destruct (contains "\"%char n) eqn:E; [|exact E].
  apply no_sep_no_backslash, basename_no_sep.
Qed.

(** X2. A friendly name never contains a backslash, whatever the raw
    identifier is. *)
Theorem prettify_name_no_backslash (raw : pystr) :
  contains "\"%char (prettify_name raw) = false.
Proof.
  unfold prettify_name.
  apply (@substring_contains _ _ (basename_step (strip raw))).
  - eapply substring_trans; [apply exe_step_substring|apply bang_step_substring].
  - apply basename_step_no_backslash.
Qed.

Lemma strip_tight (s : pystr) : tight s -> strip s = s.
Proof.
  intros T. symmetry. apply trimmed_strip.
  exists [], []. simpl. rewrite app_nil_r.
  split; [reflexivity|]. split; [reflexivity|]. split; [reflexivity|exact T].
Qed.

(** X3. An identifier that has no surrounding whitespace, no backslash, no
    ['!'] and does not end in [.exe] (in any letter case) is its own
    friendly name. *)
Theorem prettify_name_clean (raw : pystr) :
  tight raw ->
  contains "\"%char raw = false ->
  contains "!"%char raw = false ->
  endswith (lower raw) (py ".exe") = false ->
  prettify_name raw = raw.
Proof.
  intros T B N X. unfold prettify_name.
  rewrite (strip_tight T). unfold basename_step. rewrite B.
  unfold bang_step. rewrite N. unfold exe_step. now rewrite X.
Qed.

Lemma prettify_name_clean_witness :
  prettify_name (py "Visual Studio Code") = py "Visual Studio Code".
Proof.
  apply prettify_name_clean; try reflexivity.
  split; intros c H; injection H as <-; reflexivity.
Defined.

Lemma lstrip_blank_app (l u : pystr) : blank l = true -> lstrip (l ++ u) = lstrip u.
Proof.
  induction l as [|x l IH]; intros B; [reflexivity|].
  simpl in *. apply andb_true_iff in B as [-> B]. now apply IH.
Qed.

Lemma strip_padding (l raw r : pystr) :
  blank l = true -> blank r = true -> strip (l ++ raw ++ r) = strip raw.
Proof.
  intros Bl Br. symmetry. apply trimmed_strip.
  destruct (strip_trimmed raw) as (l0 & r0 & E & Bl0 & Br0 & T).
  exists (l ++ l0), (r0 ++ r). split; [|split; [|split]].
  - rewrite E at 1. now rewrite <- !app_assoc.
  - now rewrite blank_app, Bl, Bl0.
  - now rewrite blank_app, Br, Br0.
  - exact T.
Qed.

(** X4. Whitespace around the raw identifier does not matter: padding it
    with blanks on either side gives the same friendly name. *)
Theorem prettify_name_padding (l raw r : pystr) :
  blank l = true -> blank r = true ->
  prettify_name (l ++ raw ++ r) = prettify_name raw.
Proof.
  intros Bl Br. unfold prettify_name. now rewrite (@strip_padding l raw r Bl Br).
Qed.

Lemma prettify_name_padding_witness :
  prettify_name (py "  " ++ py "C:\Tools\Pkg! Edit.EXE" ++ [newline])
  = prettify_name (py "C:\Tools\Pkg! Edit.EXE").
Proof. apply prettify_name_padding; reflexivity. Defined.

(** ** The shortcut inventory *)

Lemma set_mem_In (x : pystr) (s : list pystr) : set_mem x s = true <-> In x s.
Proof.
  unfold set_mem. rewrite existsb_exists. split.
  - intros (y & Hy & E). apply str_eqb_eq in E. now subst.
  - intros H. exists x. split; [exact H|apply str_eqb_refl].
Qed.

Lemma In_set_add (x y : pystr) (s : list pystr) :
  In y (set_add x s) <-> In y s \/ y = x.
Proof.
  unfold set_add. destruct (set_mem x s) eqn:E.
  - apply set_mem_In in E. split; [auto|]. intros [H| ->]; assumption.
  - rewrite in_app_iff. simpl. split; intros [H|H]; auto.
    destruct H as [<-|[]]. now right.
Qed.

Lemma NoDup_set_add (x : pystr) (s : list pystr) :
  NoDup s -> NoDup (set_add x s).
Proof.
  intros H. unfold set_add. destruct (set_mem x s) eqn:E; [exact H|].
  assert (N : ~ In x s).
  { intros I. apply set_mem_In in I. congruence. }
  apply NoDup_rev in H. rewrite <- (rev_involutive (s ++ [x])).
  apply NoDup_rev. rewrite rev_app_distr. simpl. constructor; [|exact H].
  now rewrite <- in_rev.
Qed.

Section FoldSets.

Variable B : Type.
Variable step : list pystr -> B -> list pystr.
Variable P : B -> pystr -> Prop.

Hypothesis step_In :
  forall acc b x, In x (step acc b) <-> In x acc \/ P b x.
Hypothesis step_NoDup : forall acc b, NoDup acc -> NoDup (step acc b).

Lemma fold_left_In (l : list B) (acc : list pystr) (x : pystr) :
  In x (fold_left step l acc) <-> In x acc \/ exists b, In b l /\ P b x.
Proof.
  revert acc. induction l as [|b l IH]; intros acc; cbn [fold_left].
  - split; [auto|]. intros [H|(b & [] & _)]. exact H.
  - rewrite IH, step_In. split.
    + intros [[H|H]|(c & Hc & Hp)].
      * now left.
      * right. exists b. split; [now left|exact H].
      * right. exists c. split; [now right|exact Hp].
    + intros [H|(c & [<-|Hc] & Hp)].
      * left. now left.
      * left. now right.
      * right. now exists c.
Qed.

Lemma fold_left_NoDup (l : list B) (acc : list pystr) :
  NoDup acc -> NoDup (fold_left step l acc).
Proof.
  revert acc. induction l as [|b l IH]; intros acc H; cbn [fold_left];
    [exact H|]. apply IH. now apply step_NoDup.
Qed.

End FoldSets.

Lemma add_lnk_names_In (files acc : list pystr) (x : pystr) :
  In x (add_lnk_names files acc)
  <-> In x acc \/ exists f, In f files /\ lnk_named f x.
Proof.
  unfold add_lnk_names. apply fold_left_In.
  intros a f y. unfold lnk_named.
  destruct (endswith (lower f) (py ".lnk")).
  - rewrite In_set_add. split; intros [H|H]; auto.
    right. now destruct H.
  - split; [auto|]. intros [H|[H _]]; [exact H|discriminate].
Qed.

Lemma add_lnk_names_NoDup (files acc : list pystr) :
  NoDup acc -> NoDup (add_lnk_names files acc).
Proof.
  unfold add_lnk_names. apply fold_left_NoDup.
  intros a f H. destruct (endswith (lower f) (py ".lnk")); [|exact H].
  now apply NoDup_set_add.
Qed.

Lemma walk_names_In (os : os_model) (base_path : pystr) (acc : list pystr) (x : pystr) :
  In x (walk_names os base_path acc)
  <-> In x acc
      \/ exists triple, In triple (walk os base_path)
           /\ exists f, In f (snd triple) /\ lnk_named f x.
Proof.
  unfold walk_names.
  apply (@fold_left_In _ _
           (fun triple y => exists f, In f (snd triple) /\ lnk_named f y)).
  intros a t y. apply add_lnk_names_In.
Qed.

Lemma walk_names_NoDup (os : os_model) (base_path : pystr) (acc : list pystr) :
  NoDup acc -> NoDup (walk_names os base_path acc).
Proof.
  unfold walk_names. apply fold_left_NoDup.
  intros a t. apply add_lnk_names_NoDup.
Qed.

Lemma scan_roots_In (os : os_model) (paths : list pystr) (x : pystr) :
  In x (scan_roots os paths)
  <-> exists base_path, In base_path paths
        /\ path_exists os base_path = true
        /\ exists triple, In triple (walk os base_path)
             /\ exists f, In f (snd triple) /\ lnk_named f x.
Proof.
  unfold scan_roots.
  rewrite (@fold_left_In _ _
             (fun base_path y =>
                path_exists os base_path = true
                /\ exists triple, In triple (walk os base_path)
                     /\ exists f, In f (snd triple) /\ lnk_named f y)).
  - split.
    + intros [[]|(b & Hb & H)]. now exists b.
    + intros (b & Hb & H). right. now exists b.
  - intros acc b y. destruct (path_exists os b); simpl.
    + rewrite walk_names_In. split; intros [H|H]; auto.
      right. now destruct H.
    + split; [auto|]. intros [H|[H _]]; [exact H|discriminate].
Qed.

Lemma scan_roots_NoDup (os : os_model) (paths : list pystr) :
  NoDup (scan_roots os paths).
Proof.
  unfold scan_roots. apply fold_left_NoDup; [|constructor].
  intros acc b H. destruct (negb (path_exists os b)); [exact H|].
  now apply walk_names_NoDup.
Qed.

(** X5. With [APPDATA] set, [get_start_menu_shortcuts] returns a set (no
    name twice, also when both roots hold the same shortcut) that contains
    exactly the names recorded for the files whose lower-cased name ends in
    [.lnk] and that [os.walk] lists under a root that exists; files with
    another extension contribute nothing. *)
Theorem start_menu_shortcuts_exact (os : os_model) (appdata : pystr) :
  environ os (py "APPDATA") = Some appdata ->
  exists app_names,
    get_start_menu_shortcuts os = Ok app_names
    /\ NoDup app_names
    /\ forall name,
        In name app_names
        <-> exists base_path triple filename,
              In base_path
                [system_start_menu; ntpath.join appdata user_start_menu_suffix]
              /\ path_exists os base_path = true
              /\ In triple (walk os base_path)
              /\ In filename (snd triple)
              /\ endswith (lower filename) (py ".lnk") = true
              /\ name = fst (ntpath.splitext filename).
Proof.
  intros E. unfold get_start_menu_shortcuts. rewrite E.
  eexists. split; [reflexivity|]. split; [apply scan_roots_NoDup|].
  intros name. rewrite scan_roots_In. unfold lnk_named. split.
  - intros (b & Hb & He & t & Ht & f & Hf & Hl & Hn). now exists b, t, f.
  - intros (b & t & f & Hb & He & Ht & Hf & Hl & Hn).
    exists b. split; [exact Hb|]. split; [exact He|].
    exists t. split; [exact Ht|]. now exists f.
Qed.

Lemma start_menu_shortcuts_exact_witness :
  exists app_names,
    get_start_menu_shortcuts os_with_shortcuts = Ok app_names
    /\ NoDup app_names
    /\ In (py "Tool") app_names
    /\ ~ In (py "readme") app_names.
Proof.
  destruct (@start_menu_shortcuts_exact os_with_shortcuts
              (py "C:\Users\u\AppData\Roaming") eq_refl) as (names & E & N & I).
  exists names. split; [exact E|]. split; [exact N|]. split.
  - apply I.
    exists system_start_menu, (py "root", [py "Tools"], [py "readme.txt"; py "Tool.lnk"]),
      (py "Tool.lnk").
    repeat split; simpl; auto.
  - intros H. injection E as <-. vm_compute in H.
    repeat (destruct H as [H|H]; [discriminate|]). exact H.
Defined.

(** ** The name recorded for a shortcut file *)

Lemma rfind_aux_app (c : ascii) (a b : pystr) (i acc : Z) :
  rfind_aux c (a ++ b) i acc
  = rfind_aux c b (i + Z.of_nat (length a))%Z (rfind_aux c a i acc).
Proof.
  revert i acc. induction a as [|x a IH]; intros i acc.
  - simpl. now rewrite Z.add_0_r.
  - cbn [app rfind_aux length]. rewrite IH. f_equal. lia.
Qed.

Lemma rfind_aux_absent (c : ascii) (s : pystr) (i acc : Z) :
  contains c s = false -> rfind_aux c s i acc = acc.
Proof.
  revert i acc. induction s as [|x s IH]; intros i acc H; [reflexivity|].
  unfold contains in H. cbn [existsb] in H.
  apply orb_false_iff in H as [Hx Hs].
  cbn [rfind_aux]. rewrite (Ascii.eqb_sym x c), Hx. now apply IH.
Qed.

Lemma lower_char_dot (c : ascii) : lower_char c = "."%char -> c = "."%char.
Proof. each_char c; vm_compute; congruence. Qed.

Lemma lnk_suffix_shape (ext : pystr) :
  lower ext = py ".lnk" ->
  exists x y z, ext = ["."%char; x; y; z]
    /\ not_dot x = true /\ not_dot y = true /\ not_dot z = true.
Proof.
  intros H. destruct ext as [|d [|x [|y [|z [|? ?]]]]]; try discriminate.
  simpl in H. injection H as Hd Hx Hy Hz.
  apply lower_char_dot in Hd. subst d. exists x, y, z.
  split; [reflexivity|].
  unfold not_dot, ntpath.extsep.
  repeat split.
  - destruct (Ascii.eqb_spec x "."%char) as [->|]; [discriminate|reflexivity].
  - destruct (Ascii.eqb_spec y "."%char) as [->|]; [discriminate|reflexivity].
  - destruct (Ascii.eqb_spec z "."%char) as [->|]; [discriminate|reflexivity].
Qed.

(** X6. For a file name without slash or backslash whose lower-cased form
    ends in [.lnk], the name recorded is the file name without its last
    four characters, unless everything before the extension is dots (or
    nothing): then the whole file name, extension included, is recorded. *)
Theorem lnk_name_recorded (filename : pystr) :
  contains ntpath.sep filename = false ->
  contains ntpath.altsep filename = false ->
  endswith (lower filename) (py ".lnk") = true ->
  fst (ntpath.splitext filename)
  = if existsb not_dot (drop_last 4 filename)
    then drop_last 4 filename
    else filename.
Proof.
  intros Hs Ha He.
  pose proof (endswith_split _ _ He) as E.
  rewrite length_lower in E. change (length (py ".lnk")) with 4%nat in E.
  assert (L : (4 <= length filename)%nat).
  { apply (f_equal (@length _)) in E.
    rewrite length_app, length_lower in E. simpl in E. lia. }
  assert (F : filename = drop_last 4 filename ++ skipn (length filename - 4) filename).
  { unfold drop_last. symmetry. apply firstn_skipn. }
  assert (X : lower (skipn (length filename - 4) filename) = py ".lnk").
  { unfold lower in *. rewrite <- skipn_map. rewrite E at 1.
    rewrite skipn_app, length_firstn, length_map.
    rewrite skipn_all2 by (rewrite length_firstn, length_map; lia).
    replace (length filename - 4 - Nat.min (length filename - 4) (length filename))%nat
      with 0%nat by lia.
    reflexivity. }
  destruct (@lnk_suffix_shape _ X) as (x & y & z & Ex & Nx & Ny & Nz).
  set (stem := drop_last 4 filename) in *.
  rewrite Ex in F. clear E X Ex He.
  assert (D : rfind ntpath.extsep filename = Z.of_nat (length stem)).
  { unfold rfind. rewrite F at 1. rewrite rfind_aux_app.
    unfold not_dot in Nx, Ny, Nz. apply negb_true_iff in Nx, Ny, Nz.
    cbn [rfind_aux]. rewrite Nx, Ny, Nz. reflexivity. }
  assert (S1 : rfind ntpath.sep filename = (-1)%Z).
  { unfold rfind. now apply rfind_aux_absent. }
  assert (S2 : rfind ntpath.altsep filename = (-1)%Z).
  { unfold rfind. now apply rfind_aux_absent. }
  assert (P : firstn (length stem) filename = stem).
  { rewrite F at 1. rewrite firstn_app, Nat.sub_diag, firstn_all. simpl.
    apply app_nil_r. }
  unfold ntpath.splitext. rewrite S1, S2, D.
  change (Z.max (-1) (-1)) with (-1)%Z.
  replace (-1 <? Z.of_nat (length stem))%Z with true
    by (symmetry; apply Z.ltb_lt; lia).
  replace (Z.to_nat (Z.of_nat (length stem) - (-1 + 1))) with (length stem) by lia.
  change (Z.to_nat (-1 + 1)) with 0%nat. cbn [skipn andb].
  rewrite Nat2Z.id, P.
  change (fun c : ascii => negb (Ascii.eqb c ntpath.extsep)) with not_dot.
  destruct (existsb not_dot stem); reflexivity.
Qed.

Lemma lnk_name_recorded_witness :
  fst (ntpath.splitext (py "Edit.v2.LNK")) = py "Edit.v2"
  /\ fst (ntpath.splitext (py "..lnk")) = py "..lnk".
Proof.
  split.
  - exact (@lnk_name_recorded (py "Edit.v2.LNK") eq_refl eq_refl eq_refl).
  - exact (@lnk_name_recorded (py "..lnk") eq_refl eq_refl eq_refl).
Defined.

(** ** Reading the usage store *)

(** The outcome of the loop over the sections, whatever the store holds: it
    ends; a dictionary comes back only from sections that all open or are
    absent and hold decodable values, and an error is the one of a section
    that did not open or the [TypeError] of a value. *)
Lemma guid_loop_outcome (reg : registry) (guids : list pystr) (d : dict) :
  exists r,
    guid_loop reg guids d = Some r
    /\ match r with
       | Ok d' =>
           (forall g e, In g guids ->
              reg (key_path g) = OpenFails e -> e = FileNotFoundError)
           /\ (forall x, In x (flat_map (section_records reg) guids) ->
                 decodable (snd x) = true)
           /\ d' = aggregate (flat_map (section_records reg) guids) d
       | Raise e =>
           (e = TypeError
            /\ exists x, In x (flat_map (section_records reg) guids)
                 /\ decodable (snd x) = false)
           \/ (e <> FileNotFoundError
               /\ exists g, In g guids /\ reg (key_path g) = OpenFails e)
       end.
Proof.
  revert d. induction guids as [|g rest IH]; intros d.
  - exists (Ok d). split; [reflexivity|].
    split; [intros ? ? []|]. split; [intros ? []|reflexivity].
  - cbn [guid_loop flat_map]. unfold section_records at 1 3 5.
    destruct (reg (key_path g)) as [values|e0] eqn:Eg.
    + rewrite enum_loop_result by lia. cbn [skipn].
      destruct (forallb (fun r => decodable (snd r)) values) eqn:F.
      * destruct (IH (aggregate values d)) as (r & E & Hr).
        exists r. split; [exact E|]. destruct r as [d'|e].
        -- destruct Hr as (R & D & ->). split; [|split].
           ++ intros g0 e [<-|I] Ho; [congruence|now apply (R g0)].
           ++ intros x I. apply in_app_or in I as [I|I]; [|now apply D].
              rewrite forallb_forall in F. now apply F.
           ++ now rewrite aggregate_app.
        -- destruct Hr as [(-> & x & I & Hx)|(Ne & g0 & I & Ho)].
           ++ left. split; [reflexivity|]. exists x.
              split; [apply in_or_app; now right|exact Hx].
           ++ right. split; [exact Ne|]. exists g0. split; [now right|exact Ho].
      * exists (Raise TypeError). split; [reflexivity|]. left.
        split; [reflexivity|].
        assert (X : exists x, In x values /\ decodable (snd x) = false).
        { clear - F. induction values as [|v values IHv]; [discriminate|].
          cbn [forallb] in F. destruct (decodable (snd v)) eqn:Dv.
          - destruct (IHv F) as (x & I & Hx). exists x. split; [now right|exact Hx].
          - exists v. split; [now left|exact Dv]. }
        destruct X as (x & I & Hx). exists x.
        split; [apply in_or_app; now left|exact Hx].
    + assert (Skip : e0 = FileNotFoundError ->
                exists r,
                  guid_loop reg rest d = Some r
                  /\ match r with
                     | Ok d' =>
                         (forall g1 e, g = g1 \/ In g1 rest ->
                            reg (key_path g1) = OpenFails e -> e = FileNotFoundError)
                         /\ (forall x,
                               In x ([] ++ flat_map (section_records reg) rest) ->
                               decodable (snd x) = true)
                         /\ d' = aggregate
                                   ([] ++ flat_map (section_records reg) rest) d
                     | Raise e =>
                         (e = TypeError
                          /\ exists x,
                               In x ([] ++ flat_map (section_records reg) rest)
                               /\ decodable (snd x) = false)
                         \/ (e <> FileNotFoundError
                             /\ exists g1, (g = g1 \/ In g1 rest)
                                  /\ reg (key_path g1) = OpenFails e)
                     end).
      { intros ->. destruct (IH d) as (r & E & Hr).
        exists r. split; [exact E|]. cbn [app]. destruct r as [d'|e].
        - destruct Hr as (R & D & ->). split; [|split; [exact D|reflexivity]].
          intros g0 e [<-|I] Ho; [congruence|now apply (R g0)].
        - destruct Hr as [L|(Ne & g0 & I & Ho)]; [now left|].
          right. split; [exact Ne|]. exists g0. split; [now right|exact Ho]. }
      destruct e0; try (apply Skip; reflexivity);
        (eexists; split; [reflexivity|]; right; split; [discriminate|];
         exists g; split; [now left|exact Eg]).
Qed.

(** X7. [get_userassist_usage] always ends.  It returns a dictionary
    exactly when every section opens or is not found and the data of every
    value can be decoded, and the dictionary is then the one obtained by
    adding up the records in order.  Otherwise it raises, and the error is
    either the [TypeError] of a value whose data cannot be decoded ([None],
    an [int], or a string or list of 8 items or more) or the error, other
    than [FileNotFoundError], with which a section failed to open. *)
Theorem usage_returns_or_raises (reg : registry) :
  (exists r, get_userassist_usage reg = Some r)
  /\ (forall usage_dict,
         get_userassist_usage reg = Some (Ok usage_dict)
         <-> sections_readable reg /\ values_decodable reg
             /\ usage_dict = aggregate (all_records reg) [])
  /\ (forall e,
         get_userassist_usage reg = Some (Raise e) ->
         (e = TypeError
          /\ exists x, In x (all_records reg) /\ decodable (snd x) = false)
         \/ (e <> FileNotFoundError
             /\ exists guid, In guid USERASSIST_GUIDS
                  /\ reg (key_path guid) = OpenFails e)).
Proof.
  unfold get_userassist_usage.
  destruct (guid_loop_outcome reg USERASSIST_GUIDS []) as (r & E & Hr).
  split; [now exists r|]. split.
  - intros usage_dict. split.
    + intros H. rewrite H in E. injection E as <-. exact Hr.
    + intros (R & D & ->). now apply guid_loop_aggregate.
  - intros e H. rewrite H in E. injection E as <-. exact Hr.
Qed.

Lemma usage_returns_or_raises_witness :
  get_userassist_usage reg_access_denied = Some (Raise PermissionError)
  /\ get_userassist_usage reg_empty_payload = Some (Raise TypeError)
  /\ get_userassist_usage reg_two_sections
     = Some (Ok (aggregate (all_records reg_two_sections) [])).
Proof.
  split; [reflexivity|]. split; [reflexivity|].
  apply (proj1 (proj2 (usage_returns_or_raises reg_two_sections))).
  split; [exact sections_readable_two|].
  split; [now apply values_decodable_check|reflexivity].
Defined.

Lemma dict_keys_set (d : dict) (k : pystr) (v : Z) :
  dict_keys (dict_set d k v) = set_add k (dict_keys d).
Proof.
  unfold dict_keys, set_add, set_mem.
  induction d as [|[k' v'] d IH]; [reflexivity|].
  cbn [dict_set map fst existsb]. rewrite (str_eqb_sym k k').
  destruct (str_eqb k' k); [reflexivity|].
  cbn [map fst orb]. rewrite IH.
  destruct (existsb (str_eqb k) (map fst d)); reflexivity.
Qed.

Lemma dict_keys_aggregate (records : list (pystr * reg_data)) (d : dict) :
  dict_keys (aggregate records d)
  = fold_left (fun acc x => set_add x acc) (map friendly_name records)
      (dict_keys d).
Proof.
  revert d. induction records as [|r l IH]; intros d; [reflexivity|].
  unfold aggregate in *. cbn [fold_left map]. rewrite IH.
  unfold accumulate. now rewrite dict_keys_set.
Qed.

Lemma distinct_in_order_NoDup (l : list pystr) : NoDup (distinct_in_order l).
Proof.
  unfold distinct_in_order.
  apply (@fold_left_NoDup _ (fun acc x => set_add x acc)); [|constructor].
  intros acc b. apply NoDup_set_add.
Qed.

Lemma distinct_in_order_In (l : list pystr) (x : pystr) :
  In x (distinct_in_order l) <-> In x l.
Proof.
  unfold distinct_in_order.
  rewrite (@fold_left_In _ (fun acc x => set_add x acc) (fun b y => y = b)).
  - split.
    + intros [[]|(b & Hb & ->)]. exact Hb.
    + intros H. right. now exists x.
  - intros acc b y. apply In_set_add.
Qed.

Lemma distinct_in_order_snoc (l : list pystr) (x : pystr) :
  distinct_in_order (l ++ [x])
  = if set_mem x (distinct_in_order l) then distinct_in_order l
    else distinct_in_order l ++ [x].
Proof. unfold distinct_in_order. rewrite fold_left_app. reflexivity. Qed.

(** X8. When the store can be read and the data of every value can be
    decoded, the dictionary returned by [get_userassist_usage] has one key per
    friendly name, and the keys stand in the order in which the names first
    occur among the records: a record with a new name appends its key, a
    record with a name seen before leaves the keys as they are. *)
Theorem usage_keys_first_occurrence (reg : registry) :
  sections_readable reg ->
  values_decodable reg ->
  exists usage_dict,
    get_userassist_usage reg = Some (Ok usage_dict)
    /\ dict_keys usage_dict
       = distinct_in_order (map friendly_name (all_records reg))
    /\ NoDup (dict_keys usage_dict)
    /\ (forall name,
           In name (dict_keys usage_dict)
           <-> exists r, In r (all_records reg) /\ friendly_name r = name)
    /\ (forall l x,
           distinct_in_order (l ++ [x])
           = if set_mem x (distinct_in_order l) then distinct_in_order l
             else distinct_in_order l ++ [x]).
Proof.
  intros H D. exists (aggregate (all_records reg) []).
  split; [now apply get_userassist_usage_aggregate|].
  assert (K : dict_keys (aggregate (all_records reg) [])
              = distinct_in_order (map friendly_name (all_records reg))).
  { apply dict_keys_aggregate. }
  split; [exact K|]. rewrite K.
  split; [apply distinct_in_order_NoDup|].
  split; [|apply distinct_in_order_snoc].
  intros name. rewrite distinct_in_order_In, in_map_iff.
  split; intros (r & A & B); exists r; now split.
Qed.

Lemma usage_keys_first_occurrence_witness :
  exists usage_dict,
    get_userassist_usage reg_big_counts = Some (Ok usage_dict)
    /\ dict_keys usage_dict = [py "Paint"; py "Notepad"].
Proof.
  assert (R : sections_readable reg_big_counts).
  { intros guid e [<-|[<-|[]]]; vm_compute; congruence. }
  destruct (@usage_keys_first_occurrence reg_big_counts R
              (@values_decodable_check reg_big_counts eq_refl)) as (d & E & K & _).
  exists d. split; [exact E|]. rewrite K. reflexivity.
Defined.

Lemma record_count_range (r : pystr * reg_data) :
  (0 <= record_count r <= 4294967295)%Z.
Proof.
  unfold record_count, data_count, payload_count.
  destruct (snd r) as [b| |n|s|l]; try lia.
  destruct (8 <=? length b)%nat; [|lia].
  pose proof (le_u32_at_range b 4) as H.
  change (2 ^ 32)%Z with 4294967296%Z in H. lia.
Qed.

Lemma sum_counts_range (name : pystr) (records : list (pystr * reg_data)) :
  (0 <= sum_counts name records <= 4294967295 * Z.of_nat (length records))%Z.
Proof.
  induction records as [|r l IH]; [unfold sum_counts; simpl; lia|].
  rewrite sum_counts_cons. pose proof (record_count_range r).
  cbn [length]. rewrite Nat2Z.inj_succ.
  destruct (str_eqb (friendly_name r) name); lia.
Qed.

(** X9. When the store can be read and the data of every value can be
    decoded, every count in the dictionary is a non-negative integer, at most
    [2^32 - 1] times the number of records read; sums are not reduced
    modulo [2^32], so a total can need more than 32 bits. *)
Theorem usage_counts_bounds (reg : registry) :
  sections_readable reg ->
  values_decodable reg ->
  exists usage_dict,
    get_userassist_usage reg = Some (Ok usage_dict)
    /\ forall name,
        (0 <= dict_get usage_dict name 0
         <= 4294967295 * Z.of_nat (length (all_records reg)))%Z.
Proof.
  intros H D. exists (aggregate (all_records reg) []).
  split; [now apply get_userassist_usage_aggregate|].
  intros name. rewrite dict_get_aggregate. simpl.
  apply sum_counts_range.
Qed.

Lemma usage_counts_bounds_witness :
  exists usage_dict,
    get_userassist_usage reg_big_counts = Some (Ok usage_dict)
    /\ dict_get usage_dict (py "Paint") 0 = 8589934590%Z
    /\ (0 <= dict_get usage_dict (py "Paint") 0 <= 4294967295 * 3)%Z.
Proof.
  assert (R : sections_readable reg_big_counts).
  { intros guid e [<-|[<-|[]]]; vm_compute; congruence. }
  destruct (@usage_counts_bounds reg_big_counts R
              (@values_decodable_check reg_big_counts eq_refl)) as (d & E & B).
  exists d. split; [exact E|]. split; [|exact (B (py "Paint"))].
  vm_compute in E. injection E as <-. reflexivity.
Defined.

(** ** More on decoding *)

Lemma rot13_char_fixed (c : ascii) :
  rot13_char c = c <-> is_ascii_letter c = false.
Proof. each_char c; vm_compute; split; congruence. Qed.

(** X10. The cipher changes every letter A-Z, a-z and nothing else: a value
    name decodes to itself exactly when it contains no such letter. *)
Theorem rot_13_fixed_iff (s : pystr) :
  rot_13 s = s <-> forallb (fun c => negb (is_ascii_letter c)) s = true.
Proof.
  unfold rot_13. induction s as [|c s IH]; [now split|].
  cbn [map forallb]. rewrite andb_true_iff, <- IH, negb_true_iff.
  rewrite <- rot13_char_fixed. split.
  - intros H. injection H as Hc Hs. now split.
  - intros [Hc Hs]. now rewrite Hc, Hs.
Qed.

(** X11. The count of a payload of at least 8 bytes depends on its bytes 4
    to 7 only: two such payloads that agree on these four bytes give the
    same count, whatever their other bytes and their lengths. *)
Theorem usage_count_reads_bytes_4_to_7 (p q : pybytes) :
  (8 <= length p)%nat -> (8 <= length q)%nat ->
  firstn 4 (skipn 4 p) = firstn 4 (skipn 4 q) ->
  usage_count_of (DataBytes p) = usage_count_of (DataBytes q).
Proof.
  intros Hp Hq E.
  destruct p as [|a0 [|a1 [|a2 [|a3 [|a4 [|a5 [|a6 [|a7 p]]]]]]]];
    simpl in Hp; try lia.
  destruct q as [|b0 [|b1 [|b2 [|b3 [|b4 [|b5 [|b6 [|b7 q]]]]]]]];
    simpl in Hq; try lia.
  simpl in E. injection E as -> -> -> ->. reflexivity.
Qed.

Lemma usage_count_reads_bytes_4_to_7_witness :
  usage_count_of (DataBytes [x00; x00; x00; x00; x2a; x01; x00; x00])
  = usage_count_of (DataBytes [xff; x10; x20; x30; x2a; x01; x00; x00; x77; x88]).
Proof.
  apply usage_count_reads_bytes_4_to_7; simpl; try lia. reflexivity.
Defined.

(** ** More on [list.sort] *)

Section PySortStable.

Variables (A K : Type).
Variable key : A -> K.
Variable ltb : K -> K -> bool.
Variable reverse : bool.
Variable p : A -> bool.

(** [p] selects elements none of which has to come before another. *)
Hypothesis p_ties :
  forall a b, p a = true -> p b = true -> goes_before key ltb reverse a b = false.

Lemma filter_sort_insert (x : A) (l : list A) :
  filter p (sort_insert key ltb reverse x l) = filter p (x :: l).
Proof.
  induction l as [|y r IH]; [reflexivity|].
  cbn [sort_insert]. destruct (goes_before key ltb reverse y x) eqn:E;
    [|reflexivity].
  cbn [filter] in *. rewrite IH.
  destruct (p y) eqn:Py, (p x) eqn:Px; try reflexivity.
  rewrite (p_ties Py Px) in E. discriminate.
Qed.

Lemma list_sort_stable (l : list A) :
  filter p (list_sort key ltb reverse l) = filter p l.
Proof.
  induction l as [|x l IH]; [reflexivity|].
  cbn [list_sort fold_right]. rewrite filter_sort_insert.
  cbn [filter]. unfold list_sort in IH. now rewrite IH.
Qed.

End PySortStable.

Lemma list_sort_sorted_id (A K : Type) (key : A -> K) (ltb : K -> K -> bool)
  (reverse : bool) (l : list A) :
  StronglySorted (in_order key ltb reverse) l ->
  list_sort key ltb reverse l = l.
Proof.
  induction 1 as [|x l Hs IH Hx]; [reflexivity|].
  cbn [list_sort fold_right]. unfold list_sort in IH. rewrite IH.
  destruct l as [|y r]; [reflexivity|].
  cbn [sort_insert]. apply Forall_inv in Hx. unfold in_order in Hx.
  now rewrite Hx.
Qed.


(** ** The ranked list *)

Lemma combined_list_In (start_menu_apps : list pystr) (usage_dict : dict)
  (n : pystr) (c : Z) (f : bool) :
  In (n, c, f) (combined_list start_menu_apps usage_dict)
  <-> (f = true /\ In n start_menu_apps /\ c = dict_get usage_dict n 0)
      \/ (f = false /\ In (n, c) usage_dict /\ ~ In n start_menu_apps).
Proof.
  unfold combined_list. rewrite in_app_iff, !in_map_iff. split.
  - intros [(x & E & I)|([k v] & E & I)].
    + injection E as <- <- <-. left. now repeat split.
    + simpl in E. injection E as <- <- <-. right.
      apply filter_In in I as [I N]. simpl in N.
      split; [reflexivity|]. split; [exact I|].
      intros M. apply set_mem_In in M. rewrite M in N. discriminate.
  - intros [(-> & I & ->)|(-> & I & N)].
    + left. now exists n.
    + right. exists (n, c). split; [reflexivity|].
      apply filter_In. split; [exact I|]. simpl.
      destruct (set_mem n start_menu_apps) eqn:M; [|reflexivity].
      apply set_mem_In in M. contradiction.
Qed.

Lemma final_list_In (start_menu_apps : list pystr) (usage_dict : dict)
  (n : pystr) (c : Z) (f : bool) :
  In (n, c, f) (final_list start_menu_apps usage_dict)
  <-> (f = true /\ In n start_menu_apps /\ c = dict_get usage_dict n 0)
      \/ (f = false /\ In (n, c) usage_dict /\ ~ In n start_menu_apps).
Proof.
  rewrite <- combined_list_In. split; apply Permutation_in.
  - apply final_list_perm.
  - symmetry. apply final_list_perm.
Qed.

(** X12. The ranked list holds exactly these entries: one flagged entry
    per Start Menu shortcut, with the shortcut's usage count or 0 when the
    usage data does not know the name; and one unflagged entry per usage
    name that is not a Start Menu shortcut, with its count.  Its length is
    the number of shortcuts plus the number of such usage names. *)
Theorem final_list_entries (start_menu_apps : list pystr) (usage_dict : dict) :
  (forall n c f,
      In (n, c, f) (final_list start_menu_apps usage_dict)
      <-> (f = true /\ In n start_menu_apps /\ c = dict_get usage_dict n 0)
          \/ (f = false /\ In (n, c) usage_dict /\ ~ In n start_menu_apps))
  /\ length (final_list start_menu_apps usage_dict)
     = (length start_menu_apps
        + length (unlisted_usage start_menu_apps usage_dict))%nat.
Proof.
  split.
  - intros n c f. apply final_list_In.
  - rewrite (Permutation_length (final_list_perm _ _)).
    unfold combined_list, unlisted_usage.
    now rewrite length_app, !length_map.
Qed.

Lemma NoDup_map_filter (f : pystr * Z -> bool) (d : dict) :
  NoDup (map fst d) -> NoDup (map fst (filter f d)).
Proof.
  induction d as [|kv d IH]; [intros; constructor|].
  cbn [map filter]. intros H. apply NoDup_cons_iff in H as [N H].
  destruct (f kv); [|now apply IH].
  cbn [map]. constructor; [|now apply IH].
  intros I. apply N. apply in_map_iff in I as (x & E & I).
  apply filter_In in I as [I _]. apply in_map_iff. now exists x.
Qed.

Lemma combined_list_names (start_menu_apps : list pystr) (usage_dict : dict) :
  map app_name_of (combined_list start_menu_apps usage_dict)
  = start_menu_apps ++ dict_keys (unlisted_usage start_menu_apps usage_dict).
Proof.
  unfold combined_list, unlisted_usage, dict_keys.
  rewrite map_app, !map_map. f_equal. apply map_id.
Qed.

(** X13. When the shortcut set and the dictionary keys have no repetition
    (as a Python set and dict guarantee), no name occurs twice in the
    ranked list. *)
Theorem final_list_names_unique (start_menu_apps : list pystr) (usage_dict : dict) :
  NoDup start_menu_apps -> NoDup (dict_keys usage_dict) ->
  NoDup (map app_name_of (final_list start_menu_apps usage_dict)).
Proof.
  intros Hs Hd.
  apply (@Permutation_NoDup _
           (map app_name_of (combined_list start_menu_apps usage_dict))).
  - apply Permutation_map. symmetry. apply final_list_perm.
  - rewrite combined_list_names. apply NoDup_app.
    + exact Hs.
    + now apply NoDup_map_filter.
    + intros a Ia Ib. unfold dict_keys, unlisted_usage in Ib.
      apply in_map_iff in Ib as ([k v] & E & I). simpl in E. subst k.
      apply filter_In in I as [_ N]. simpl in N.
      apply set_mem_In in Ia. rewrite Ia in N. discriminate.
Qed.

Lemma final_list_names_unique_witness :
  NoDup (map app_name_of
           (final_list [py "Notepad"; py "Calc"]
              [(py "Paint", 10%Z); (py "Notepad", 2%Z)])).
Proof.
  apply final_list_names_unique.
  - repeat constructor; simpl; intuition discriminate.
  - repeat constructor; simpl; intuition discriminate.
Defined.

(** X14. Among the entries of one group (flagged, or unflagged) the counts
    never increase along the ranked list. *)
Theorem final_list_counts_descend (start_menu_apps : list pystr) (usage_dict : dict)
  (l1 l2 l3 : list entry) (x y : entry) :
  final_list start_menu_apps usage_dict = l1 ++ x :: l2 ++ y :: l3 ->
  is_start_menu x = is_start_menu y ->
  (count_of y <= count_of x)%Z.
Proof.
  intros E F. pose proof (final_list_sorted start_menu_apps usage_dict) as S.
  rewrite E in S. clear E.
  induction l1 as [|z l1 IH]; simpl in S.
  - apply StronglySorted_inv in S as [_ H]. rewrite Forall_forall in H.
    assert (I : In y (l2 ++ y :: l3)) by (apply in_or_app; right; now left).
    specialize (H y I). unfold key_ltb, sort_key in H. simpl in H.
    rewrite F in H. destruct (is_start_menu y); simpl in H;
      apply Z.ltb_ge in H; exact H.
  - apply StronglySorted_inv in S as [S _]. now apply IH.
Qed.

Lemma final_list_counts_descend_witness :
  (count_of (py "X", 2%Z, false) <= count_of (py "Y", 5%Z, false))%Z.
Proof.
  apply (@final_list_counts_descend
           [py "A"; py "B"]
           [(py "Notepad", 2%Z); (py "B", 10%Z); (py "X", 2%Z); (py "Y", 5%Z)]
           [] [(py "Notepad", 2%Z, false)]
           [(py "B", 10%Z, true); (py "A", 0%Z, true)]
           (py "Y", 5%Z, false) (py "X", 2%Z, false));
    reflexivity.
Defined.

Lemma same_rank_ties (f : bool) (c : Z) (a b : entry) :
  same_rank f c a = true -> same_rank f c b = true ->
  goes_before sort_key key_ltb true a b = false.
Proof.
  unfold same_rank, goes_before, key_ltb, sort_key. simpl.
  intros Ha Hb. apply andb_true_iff in Ha as [Fa Ca], Hb as [Fb Cb].
  apply Bool.eqb_prop in Fa, Fb. apply Z.eqb_eq in Ca, Cb.
  rewrite Fa, Fb, Ca, Cb. destruct f; simpl; apply Z.ltb_irrefl.
Qed.

(** X15. The sort of [main] keeps ties in their order of encounter: the
    entries of one group with one count stand in the ranked list as they
    stood before sorting, shortcuts in the iteration order of the set and
    the other names in dictionary order. *)
Theorem final_list_stable (start_menu_apps : list pystr) (usage_dict : dict)
  (f : bool) (c : Z) :
  filter (same_rank f c) (final_list start_menu_apps usage_dict)
  = filter (same_rank f c) (combined_list start_menu_apps usage_dict).
Proof.
  unfold final_list. apply list_sort_stable. apply same_rank_ties.
Qed.

(** X16. Sorting the ranked list once more, with the same key and
    direction, leaves it as it is. *)
Theorem final_list_resorted (start_menu_apps : list pystr) (usage_dict : dict) :
  list_sort sort_key key_ltb true (final_list start_menu_apps usage_dict)
  = final_list start_menu_apps usage_dict.
Proof. apply list_sort_sorted_id. apply final_list_sorted. Qed.




(** ** Ties in the export *)





(** ** The final path component *)

Lemma scan_back_skip (p : pystr) (i k : nat) :
  (forall j, (i <= j < i + k)%nat -> ntpath.is_sep (nth j p " "%char) = false) ->
  ntpath.scan_back p (i + k) = ntpath.scan_back p i.
Proof.
  induction k as [|k IH]; intros H.
  - now rewrite Nat.add_0_r.
  - rewrite Nat.add_succ_r. cbn [ntpath.scan_back].
    rewrite H by lia. apply IH. intros j Hj. apply H. lia.
Qed.

Lemma nth_no_sep (t : pystr) (j : nat) :
  forallb (fun c => negb (ntpath.is_sep c)) t = true ->
  (j < length t)%nat -> ntpath.is_sep (nth j t " "%char) = false.
Proof.
  intros F Hj. rewrite forallb_forall in F.
  apply negb_true_iff. apply F. now apply nth_In.
Qed.

Lemma scan_back_last_sep (head tail : pystr) (c : ascii) :
  ntpath.is_sep c = true ->
  forallb (fun x => negb (ntpath.is_sep x)) tail = true ->
  ntpath.scan_back (head ++ c :: tail) (length (head ++ c :: tail))
  = S (length head).
Proof.
  intros Hc Ht. rewrite length_app. cbn [length].
  replace (length head + S (length tail))%nat
    with (S (length head) + length tail)%nat by lia.
  rewrite scan_back_skip.
  - cbn [ntpath.scan_back]. rewrite app_nth2 by lia.
    rewrite Nat.sub_diag. simpl nth. now rewrite Hc.
  - intros j Hj. rewrite app_nth2 by lia.
    destruct (j - length head)%nat as [|m] eqn:E; [lia|].
    cbn [nth]. apply nth_no_sep; [exact Ht|lia].
Qed.

(** X19. Once the trimmed identifier contains a backslash, backslash and
    forward slash both end a path component: when the part after the drive
    holds a separator, the name kept is what follows the last separator of
    either kind. *)
Theorem basename_step_after_last_sep (name head tail : pystr) (c : ascii) :
  contains "\"%char name = true ->
  snd (ntpath.splitdrive name) = head ++ c :: tail ->
  ntpath.is_sep c = true ->
  forallb (fun x => negb (ntpath.is_sep x)) tail = true ->
  basename_step name = tail.
Proof.
  intros B E Hc Ht. unfold basename_step. rewrite B.
  unfold ntpath.basename, ntpath.split.
  destruct (ntpath.splitdrive name) as [d rest]. simpl in E. subst rest.
  cbn [snd]. rewrite (@scan_back_last_sep head tail c Hc Ht).
  clear. induction head as [|x head IH]; [reflexivity|exact IH].
Qed.

Lemma basename_step_after_last_sep_witness :
  basename_step (py "C:\Program Files\Suite/bin/App.exe") = py "App.exe".
Proof.
  apply (@basename_step_after_last_sep _ (py "\Program Files\Suite/bin") _ "/"%char);
    reflexivity.
Defined.

(** ** The per-user root *)

(** X20. For an [APPDATA] value whose part after the drive starts with a
    separator and does not end with one, the per-user root that is scanned
    is [APPDATA] followed by a backslash and
    [Microsoft\Windows\Start Menu\Programs]. *)
Theorem user_root_path (appdata drive rest : pystr) (first last_c : ascii) :
  ntpath.splitdrive appdata = (drive, first :: rest ++ [last_c]) ->
  ntpath.is_sep first = true ->
  ntpath.is_sep last_c = false ->
  ntpath.join appdata user_start_menu_suffix
  = appdata ++ [ntpath.sep] ++ user_start_menu_suffix.
Proof.
  intros E Hf Hl. pose proof (splitdrive_app appdata) as A.
  generalize user_start_menu_suffix as suffix. intros suffix.
  unfold ntpath.join. rewrite E in *. cbn [fst snd] in A.
  change (first :: rest ++ [last_c]) with ((first :: rest) ++ [last_c]).
  rewrite rev_app_distr. cbn [rev app]. rewrite Hl.
  cbn [app]. rewrite Hf. cbn [negb andb].
  rewrite <- A.
  destruct (rev drive);
    repeat (rewrite <- app_assoc || rewrite <- app_comm_cons || cbn [app]);
    reflexivity.
Qed.

Lemma user_root_path_witness :
  ntpath.join (py "C:\Users\u\AppData\Roaming") user_start_menu_suffix
  = py "C:\Users\u\AppData\Roaming\Microsoft\Windows\Start Menu\Programs".
Proof.
  exact (@user_root_path (py "C:\Users\u\AppData\Roaming") (py "C:")
           (py "Users\u\AppData\Roamin") "\"%char "g"%char
           eq_refl eq_refl eq_refl).
Defined.

(** ** From records to ranked counts *)

Lemma dict_get_In (d : dict) (k : pystr) (v : Z) :
  NoDup (dict_keys d) -> In (k, v) d -> dict_get d k 0 = v.
Proof.
  unfold dict_keys. induction d as [|[k' v'] d IH]; [intros _ []|].
  cbn [map fst dict_get]. intros N I. apply NoDup_cons_iff in N as [N0 N].
  destruct I as [E|I].
  - injection E as -> ->. now rewrite str_eqb_refl.
  - destruct (str_eqb k' k) eqn:Ek; [|now apply IH].
    apply str_eqb_eq in Ek. subst k'. exfalso. apply N0.
    apply in_map_iff. now exists (k, v).
Qed.

(** X21. End to end, the count shown for a name is the total over the
    records whose friendly name is exactly that name (letter case
    included): when the usage store is readable and the data of every
    value can be decoded, every entry of the ranked
    list built from its dictionary, flagged or not, carries the sum of the
    counts of the records that normalize to the entry's name; a shortcut no
    record normalizes to carries 0. *)
Theorem ranked_counts_from_records (reg : registry) :
  sections_readable reg ->
  values_decodable reg ->
  exists usage_dict,
    get_userassist_usage reg = Some (Ok usage_dict)
    /\ forall start_menu_apps n c f,
        In (n, c, f) (final_list start_menu_apps usage_dict) ->
        c = sum_counts n (all_records reg).
Proof.
  intros H D. exists (aggregate (all_records reg) []).
  split; [now apply get_userassist_usage_aggregate|].
  intros s n c f I. apply final_list_In in I.
  assert (G : dict_get (aggregate (all_records reg) []) n 0
              = sum_counts n (all_records reg)).
  { now rewrite dict_get_aggregate. }
  destruct I as [(_ & _ & ->)|(_ & I & _)]; [exact G|].
  rewrite <- G. symmetry. apply dict_get_In; [|exact I].
  rewrite dict_keys_aggregate. apply distinct_in_order_NoDup.
Qed.

Lemma ranked_counts_from_records_witness :
  exists usage_dict,
    get_userassist_usage reg_big_counts = Some (Ok usage_dict)
    /\ final_list [py "Notepad"; py "paint"] usage_dict
       = [(py "Paint", 8589934590%Z, false); (py "Notepad", 1%Z, true);
          (py "paint", 0%Z, true)].
Proof.
  assert (R : sections_readable reg_big_counts).
  { intros guid e [<-|[<-|[]]]; vm_compute; congruence. }
  destruct (@ranked_counts_from_records reg_big_counts R
              (@values_decodable_check reg_big_counts eq_refl)) as (d & E & _).
  exists d. split; [exact E|].
  vm_compute in E. injection E as <-. reflexivity.
Defined.
